(** * Oware Abapa: rules, tables, search and notation

    A shallow embedding of the prototype engine
    ([res/scripts/util/machinery.py], [res/scripts/prototype/oware.py],
    [res/scripts/prototype/engine.py]) together with the properties of
    its specification.

    Boards are Python tuples of integers: [list Z].  Houses and moves
    index tuples: [nat].  Every Python operation that can raise does so
    through the [result] monad below. *)

From Stdlib Require Import ZArith Lia Bool Ascii String DecimalString.
From stdpp Require Import base list gmap sets.

Local Open Scope Z_scope.

(** ** Exceptions and the error monad *)

Inductive exn : Type :=
  | IndexError
  | KeyError
  | RecursionError
  | UnboundLocalError
  | ValueError.

Inductive result (A : Type) : Type :=
  | Ok (a : A)
  | Raise (e : exn).

Arguments Ok {A} a.
Arguments Raise {A} e.

Definition bind {A B : Type} (m : result A) (k : A -> result B) : result B :=
  match m with
  | Ok a => k a
  | Raise e => Raise e
  end.

Notation "x <- m ;; k" := (bind m (fun x => k))
  (at level 100, m at next level, right associativity).

(** ** Python sequence primitives *)

(** [l[i]] for a non-negative index. *)
Definition getitem {A : Type} (l : list A) (i : nat) : result A :=
  match l !! i with
  | Some x => Ok x
  | None => Raise IndexError
  end.

(** [l[i] = x] on a list. *)
Definition setitem {A : Type} (l : list A) (i : nat) (x : A) : result (list A) :=
  if (i <? length l)%nat then Ok (<[i := x]> l) else Raise IndexError.

(** [l[a:b]] for non-negative bounds; slicing never raises. *)
Definition slice {A : Type} (l : list A) (a b : nat) : list A :=
  take (b - a) (drop a l).

(** [l[:n]] where [n] is any integer: a negative bound counts from the end. *)
Definition slice_to {A : Type} (l : list A) (n : Z) : list A :=
  if n <? 0 then take (Z.to_nat (Z.of_nat (length l) + n)) l
  else take (Z.to_nat n) l.

(** [range(a, b)] *)
Definition range (a b : nat) : list nat := seq a (b - a).

(** [range(a, b, -1)] *)
Definition range_down (a b : Z) : list nat :=
  (fun i => Z.to_nat (a - Z.of_nat i)) <$> seq 0 (Z.to_nat (a - b)).

(** [l * n] *)
Definition times {A : Type} (l : list A) (n : nat) : list A :=
  concat (replicate n l).

(** [sum(l, start)] *)
Definition sum (l : list Z) (start : Z) : Z := foldl Z.add start l.

(** ** Python strings *)

(** [str(n)] for an integer. *)
Definition str (n : Z) : string := NilZero.string_of_int (Z.to_int n).

(** [int(s)] for a string holding an optional minus sign and decimal
    digits, which is all the position pattern lets through; anything else
    is rejected. *)
Definition int (s : string) : result Z :=
  match NilZero.int_of_string s with
  | Some d => Ok (Z.of_int d)
  | None => Raise ValueError
  end.

(** [sep.join(l)] *)
Fixpoint join (sep : string) (l : list string) : string :=
  match l with
  | [] => EmptyString
  | [x] => x
  | x :: l' => (x ++ sep ++ join sep l')%string
  end.

(** [s.split(sep)] for a one-character separator. *)
Fixpoint split (sep : ascii) (s : string) : list string :=
  match s with
  | EmptyString => [EmptyString]
  | String c s' =>
      if Ascii.eqb c sep then EmptyString :: split sep s'
      else match split sep s' with
           | [] => [String c EmptyString]
           | w :: ws => String c w :: ws
           end
  end.

(** [l.pop()] as a statement: the last item is dropped. *)
Definition pop {A : Type} (l : list A) : result (list A) :=
  match l with
  | [] => Raise IndexError
  | _ => Ok (removelast l)
  end.

(** The one-character strings a [for] loop over a string visits. *)
Fixpoint chars (s : string) : list string :=
  match s with
  | EmptyString => []
  | String c s' => String c EmptyString :: chars s'
  end.

(** [ord(s)] for a one-character string. *)
Definition ord (s : string) : result nat :=
  match s with
  | String c EmptyString => Ok (nat_of_ascii c)
  | _ => Raise ValueError
  end.

(** ** re: a backtracking matcher for the patterns of oware.py *)

Module re.

Inductive regex : Type :=
  | Chr (c : ascii)                 (* a literal character *)
  | Cls (lo hi : ascii)             (* [lo-hi] *)
  | Seq (r1 r2 : regex)             (* r1 r2 *)
  | Alt (r1 r2 : regex)             (* r1|r2 *)
  | Star (r : regex)                (* r* (greedy) *)
  | Opt (r : regex)                 (* r? (greedy) *)
  | Rep (n : nat) (r : regex)       (* r{n} *)
  | Group (i : nat) (r : regex)     (* capturing group number i *)
  | Eol.                            (* $ *)

(** The text of the capturing groups that took part in the match. *)
Definition groups : Type := gmap nat string.

(** What was consumed between the input [s] and its suffix [s']. *)
Definition consumed (s s' : string) : string :=
  substring 0 (String.length s - String.length s') s.

(** [run r s g k]: match [r] at the head of [s], then continue with [k] on
    the rest; alternatives are tried in the order of the backtracking
    engine (left branch first, longest repetition first).  An iteration of
    [Star] has to consume input. *)
Fixpoint run (r : regex) (s : string) (g : groups)
  (k : string -> groups -> option groups) {struct r} : option groups :=
  match r with
  | Chr c =>
      match s with
      | String c' s' => if Ascii.eqb c' c then k s' g else None
      | EmptyString => None
      end
  | Cls lo hi =>
      match s with
      | String c' s' =>
          if (nat_of_ascii lo <=? nat_of_ascii c')%nat
             && (nat_of_ascii c' <=? nat_of_ascii hi)%nat
          then k s' g else None
      | EmptyString => None
      end
  | Seq r1 r2 => run r1 s g (fun s' g' => run r2 s' g' k)
  | Alt r1 r2 =>
      match run r1 s g k with
      | Some m => Some m
      | None => run r2 s g k
      end
  | Star r' =>
      (fix star (fuel : nat) (s : string) (g : groups) : option groups :=
         match fuel with
         | O => k s g
         | S fuel' =>
             match run r' s g (fun s' g' =>
                     if (String.length s' <? String.length s)%nat
                     then star fuel' s' g' else None) with
             | Some m => Some m
             | None => k s g
             end
         end) (String.length s) s g
  | Opt r' =>
      match run r' s g k with
      | Some m => Some m
      | None => k s g
      end
  | Rep n r' =>
      (fix rep (n : nat) (s : string) (g : groups) : option groups :=
         match n with
         | O => k s g
         | S n' => run r' s g (fun s' g' => rep n' s' g')
         end) n s g
  | Group i r' =>
      run r' s g (fun s' g' => k s' (<[i := consumed s s']> g'))
  | Eol =>
      match s with
      | EmptyString => k s g
      | String c EmptyString =>
          if Ascii.eqb c "010"%char then k s g else None
      | _ => None
      end
  end.

(** [re.match(pattern, string)]: the match starts at the beginning of the
    string and may end anywhere; [None] when there is no match. *)
Definition match_ (pattern : regex) (s : string) : option groups :=
  run pattern s ∅ (fun _ g => Some g).

(** [m.group(i)]; a group that did not take part yields [None], shown here
    as a missing key. *)
Definition group (m : groups) (i : nat) : result string :=
  match m !! i with
  | Some s => Ok s
  | None => Raise IndexError
  end.

End re.

(** ** machinery.py: the precomputed tables *)

Module Machinery.

Definition SEED_DRILL : list (list nat) :=
  [ take 48 (times (range 1 12) 5);
    take 48 (times (range 2 12 ++ range 0 1) 5);
    take 48 (times (range 3 12 ++ range 0 2) 5);
    take 48 (times (range 4 12 ++ range 0 3) 5);
    take 48 (times (range 5 12 ++ range 0 4) 5);
    take 48 (times (range 6 12 ++ range 0 5) 5);
    take 48 (times (range 7 12 ++ range 0 6) 5);
    take 48 (times (range 8 12 ++ range 0 7) 5);
    take 48 (times (range 9 12 ++ range 0 8) 5);
    take 48 (times (range 10 12 ++ range 0 9) 5);
    take 48 (times (range 11 12 ++ range 0 10) 5);
    take 48 (times (range 0 11) 5) ].

Definition HARVESTER : list (list nat) :=
  [ range_down 0 (-1);
    range_down 1 (-1);
    range_down 2 (-1);
    range_down 3 (-1);
    range_down 4 (-1);
    range_down 5 (-1);
    range_down 6 5;
    range_down 7 5;
    range_down 8 5;
    range_down 9 5;
    range_down 10 5;
    range_down 11 5 ].

(** [xselections(items, length)]: every sequence of [length] items, in
    generation order. *)
Fixpoint xselections (items : list Z) (length : nat) : list (list Z) :=
  match length with
  | O => [[]]
  | S length' =>
      flat_map (fun item =>
        (fun selection => item :: selection) <$> xselections items length')
        items
  end.

(** [xboard_positions(items, length)] *)
Definition xboard_positions (items : list Z) (length : nat) : list (list Z) :=
  (fun combination => combination ++ replicate (6 - length) 0)
    <$> xselections items length.

(** [positions[k][n]] after the filling loop; the dictionaries are used as
    sets of rows. *)
Definition positions (k n : nat) : gset (list Z) :=
  match k with
  | 0%nat => list_to_set (xboard_positions [1; 2] (n + 1))
  | 1%nat => list_to_set (xboard_positions [0; 1] (n + 1))
  | _ => {[ [0; 0; 0; 0; 0; 0] ]}
  end.

(** The value stored in [sdict[seeds]], when the loop body stores one. *)
Definition reaper_entry (move seeds : nat) : option (nat * gset (list Z)) :=
  match (SEED_DRILL !! move) ≫= (fun drill => drill !! (seeds - 1)%nat) with
  | None => None
  | Some last =>
      if negb (xorb (last <? 6)%nat (5 <? move)%nat) then
        let n := if (5 <? last)%nat then (last - 6)%nat else last in
        if (seeds <? 12)%nat then Some (last, positions 0 n)
        else if (last =? 11)%nat || (last =? 5)%nat then
          if (seeds <? 23)%nat then Some (last, positions 1 n)
          else Some (last, positions 2 n)
        else Some (last, ∅)
      else None
  end.

(** [sdict] for one source house, filled for [seeds] in [range(1, 34)]. *)
Definition reaper_dict (move : nat) : gmap Z (nat * gset (list Z)) :=
  foldl (fun sdict seeds =>
           match reaper_entry move seeds with
           | Some e => <[Z.of_nat seeds := e]> sdict
           | None => sdict
           end) ∅ (range 1 34).

Definition REAPER : list (gmap Z (nat * gset (list Z))) :=
  reaper_dict <$> range 0 12.

End Machinery.

(** ** oware.py: the rules *)

Module Oware.

Definition _SEED_DRILL := Machinery.SEED_DRILL.
Definition _HARVESTER := Machinery.HARVESTER.
Definition _REAPER := Machinery.REAPER.

Definition SOUTH : Z := 1.
Definition NORTH : Z := -1.
Definition DRAW : Z := 0.
Definition NULL_MOVE : Z := -1.

Definition _EMPTY_ROW : list Z := [0; 0; 0; 0; 0; 0].
Definition _EMPTY_ROWL : list Z := [0; 0; 0; 0; 0; 0].

Definition get_initial_board : list Z := times [4] 12 ++ [0; 0].

Definition get_final_board (board : list Z) : result (list Z) :=
  b12 <- getitem board 12;;
  if b12 >? 24 then Ok board else
  b13 <- getitem board 13;;
  if b13 >? 24 then Ok board else
  if (b12 =? b13) && (b13 =? 24) then Ok board else
  Ok (times [0] 12 ++ [ sum (slice board 0 6) b12; sum (slice board 6 12) b13 ]).

(** Python compares tuples structurally. *)
Definition row_eqb (r1 r2 : list Z) : bool := bool_decide (r1 = r2).

Definition is_capture (board : list Z) (move : nat) : result bool :=
  seeds <- getitem board move;;
  sdict <- getitem _REAPER move;;
  match sdict !! seeds with
  | None => Ok false
  | Some (last, forbidden) =>
      at_last <- getitem board last;;
      if at_last >? 2 then Ok false else
      if xorb (at_last =? 0) (seeds <? 12)
         || ((11 <? seeds) && (seeds <? 23) && (at_last =? 1))
      then
        if (move <? 6)%nat then
          if bool_decide (slice board 6 12 ∈ forbidden) then Ok false else Ok true
        else
          if bool_decide (slice board 0 6 ∈ forbidden) then Ok false else Ok true
      else Ok false
  end.

(** The sowing loop: [for house in ...: new_board[house] += 1].  The loop
    variable [house] stays bound after the loop; it is unbound when the loop
    body never ran. *)
Fixpoint sow (houses : list nat) (new_board : list Z) (house : option nat)
  : result (list Z * option nat) :=
  match houses with
  | [] => Ok (new_board, house)
  | h :: houses' =>
      v <- getitem new_board h;;
      new_board' <- setitem new_board h (v + 1);;
      sow houses' new_board' (Some h)
  end.

(** The gathering loop over [HARVESTER[house]], adding to [store]. *)
Fixpoint harvest (store : nat) (houses : list nat) (board_copy : list Z)
  : result (list Z) :=
  match houses with
  | [] => Ok board_copy
  | h :: houses' =>
      v <- getitem board_copy h;;
      if negb ((4 >? v) && (v >? 1)) then Ok board_copy else
      s <- getitem board_copy store;;
      v' <- getitem board_copy h;;
      bc <- setitem board_copy store (s + v');;
      bc' <- setitem bc h 0;;
      harvest store houses' bc'
  end.

(** The [# Gather] part of [compute_board], entered with the loop variable
    [house] bound to the last house sown. *)
Definition gather (move house : nat) (new_board : list Z) : result (list Z) :=
  v <- getitem new_board house;;
  if (4 >? v) && (v >? 1) then
    if (move <? 6)%nat && (5 <? house)%nat then
      chain <- getitem _HARVESTER house;;
      board_copy <- harvest 12 chain new_board;;
      if negb (row_eqb (slice board_copy 6 12) _EMPTY_ROWL)
      then Ok board_copy else Ok new_board
    else if (5 <? move)%nat && (house <? 6)%nat then
      chain <- getitem _HARVESTER house;;
      board_copy <- harvest 13 chain new_board;;
      if negb (row_eqb (slice board_copy 0 6) _EMPTY_ROWL)
      then Ok board_copy else Ok new_board
    else Ok new_board
  else Ok new_board.

Definition compute_board (board : list Z) (move : nat) : result (list Z) :=
  new_board <- setitem board move 0;;
  drill <- getitem _SEED_DRILL move;;
  seeds <- getitem board move;;
  sown <- sow (slice_to drill seeds) new_board None;;
  let (new_board, house) := sown in
  match house with
  | None => Raise UnboundLocalError
  | Some house => gather move house new_board
  end.

(** [0 < seeds > bound - move], the chained comparison of the generators. *)
Definition reaches (bound : Z) (move : nat) (seeds : Z) : bool :=
  (0 <? seeds) && (seeds >? bound - Z.of_nat move).

(** The scanning loops of [has_legal_moves]. *)
Fixpoint any_reaches (bound : Z) (board : list Z) (houses : list nat)
  : result bool :=
  match houses with
  | [] => Ok false
  | house :: houses' =>
      seeds <- getitem board house;;
      if reaches bound house seeds then Ok true
      else any_reaches bound board houses'
  end.

Definition has_legal_moves (board : list Z) (turn : Z) : result bool :=
  if turn =? SOUTH then
    if negb (row_eqb (slice board 0 6) _EMPTY_ROW) then
      if negb (row_eqb (slice board 6 12) _EMPTY_ROW) then Ok true
      else any_reaches 5 board [5; 4; 3; 2; 1; 0]%nat
    else Ok false
  else
    if negb (row_eqb (slice board 6 12) _EMPTY_ROW) then
      if negb (row_eqb (slice board 0 6) _EMPTY_ROW) then Ok true
      else any_reaches 11 board [11; 10; 9; 8; 7; 6]%nat
    else Ok false.

Definition is_end (board : list Z) (turn : Z) : result bool :=
  b12 <- getitem board 12;;
  if b12 >? 24 then Ok true else
  b13 <- getitem board 13;;
  if b13 >? 24 then Ok true else
  legal <- has_legal_moves board turn;;
  if legal then Ok false else Ok true.

(** [get_winner]: [Some] side or draw, [None] while the match goes on. *)
Definition get_winner (board : list Z) (turn : Z) : result (option Z) :=
  b12 <- getitem board 12;;
  if b12 >? 24 then Ok (Some SOUTH) else
  b13 <- getitem board 13;;
  if b13 >? 24 then Ok (Some NORTH) else
  legal <- has_legal_moves board turn;;
  if negb legal then
    cboard <- get_final_board board;;
    c12 <- getitem cboard 12;;
    c13 <- getitem cboard 13;;
    if c12 >? c13 then Ok (Some SOUTH) else
    c12' <- getitem cboard 12;;
    c13' <- getitem cboard 13;;
    if c12' <? c13' then Ok (Some NORTH) else Ok (Some DRAW)
  else Ok None.

Definition get_score (board : list Z) : result Z :=
  b12 <- getitem board 12;;
  b13 <- getitem board 13;;
  Ok (b12 - b13).

Definition get_final_score (board : list Z) : result Z :=
  b12 <- getitem board 12;;
  if b12 >? 24 then Ok 10000 else
  b13 <- getitem board 13;;
  if b13 >? 24 then Ok (-10000) else
  b12' <- getitem board 12;;
  let score := sum (slice board 0 6) b12' in
  if score >? 24 then Ok 10000
  else if score <? 24 then Ok (-10000)
  else Ok 0.

(** One scanning loop of the move generators: the moves of [moves], in
    order, whose seed count passes [guard] and whose [is_capture] value is
    [capture].  [is_capture] is only evaluated when the guard holds. *)
Fixpoint scan (guard : nat -> Z -> bool) (capture : bool) (board : list Z)
  (moves : list nat) : result (list nat) :=
  match moves with
  | [] => Ok []
  | move :: moves' =>
      seeds <- getitem board move;;
      yield <- (if guard move seeds
                then c <- is_capture board move;; Ok (eqb c capture)
                else Ok false);;
      rest <- scan guard capture board moves';;
      Ok (if yield then move :: rest else rest)
  end.

(** [xlegal_moves]: the moves in the order the generator yields them. *)
Definition xlegal_moves (board : list Z) (turn : Z) : result (list nat) :=
  if turn =? SOUTH then
    captures <- scan (reaches 5) true board [5; 4; 3; 2; 1; 0]%nat;;
    if negb (row_eqb (slice board 6 12) _EMPTY_ROW) then
      small <- scan (fun _ seeds => (0 <? seeds) && (seeds <? 3)) false
                 board [0; 1; 2; 3; 4; 5]%nat;;
      large <- scan (fun _ seeds => seeds >? 2) false
                 board [0; 1; 2; 3; 4; 5]%nat;;
      Ok (captures ++ small ++ large)
    else
      feeding <- scan (reaches 5) false board [0; 1; 2; 3; 4; 5]%nat;;
      Ok (captures ++ feeding)
  else
    captures <- scan (reaches 11) true board [11; 10; 9; 8; 7; 6]%nat;;
    if negb (row_eqb (slice board 0 6) _EMPTY_ROW) then
      small <- scan (fun _ seeds => (0 <? seeds) && (seeds <? 3)) false
                 board [6; 7; 8; 9; 10; 11]%nat;;
      large <- scan (fun _ seeds => seeds >? 2) false
                 board [6; 7; 8; 9; 10; 11]%nat;;
      Ok (captures ++ small ++ large)
    else
      feeding <- scan (reaches 11) false board [6; 7; 8; 9; 10; 11]%nat;;
      Ok (captures ++ feeding).

(** [xdisruptive_moves] *)
Definition xdisruptive_moves (board : list Z) (turn : Z) : result (list nat) :=
  if turn =? SOUTH
  then scan (reaches 5) true board [5; 4; 3; 2; 1; 0]%nat
  else scan (reaches 11) true board [11; 10; 9; 8; 7; 6]%nat.

(** *** Notation *)

Definition to_board_notation (board : list Z) (turn : Z) : string :=
  let notation := str <$> board in
  let notation := notation ++ [if turn =? SOUTH then "S"%string else "N"%string] in
  join "-" notation.

(** [chr(n)] within the ASCII range used here. *)
Definition to_move_notation (move : Z) : result string :=
  if (0 <=? move) && (move <=? 5)
  then Ok (String (ascii_of_nat (Z.to_nat (65 + move))) EmptyString)
  else if (6 <=? move) && (move <=? 11)
  then Ok (String (ascii_of_nat (Z.to_nat (91 + move))) EmptyString)
  else Raise ValueError.

Fixpoint to_moves_notation (moves : list Z) : result string :=
  match moves with
  | [] => Ok EmptyString
  | move :: moves' =>
      n <- to_move_notation move;;
      rest <- to_moves_notation moves';;
      Ok (n ++ rest)%string
  end.

Definition to_move (notation : string) : result nat :=
  if (String.length notation =? 1)%nat then
    o <- ord notation;;
    if (65 <=? o)%nat && (o <=? 70)%nat then Ok (o - 65)%nat
    else if (97 <=? o)%nat && (o <=? 102)%nat then Ok (o - 91)%nat
    else Raise ValueError
  else Raise ValueError.

(** ['([A-F]([a-f][A-F])*[a-f]?)|([a-f]([A-F][a-f])*[A-F]?)$']:
    alternation binds loosest, so the final [$] belongs to the second
    branch only. *)
Definition moves_pattern : re.regex :=
  re.Alt
    (re.Group 1
       (re.Seq (re.Cls "A" "F")
          (re.Seq (re.Star (re.Group 2 (re.Seq (re.Cls "a" "f") (re.Cls "A" "F"))))
                  (re.Opt (re.Cls "a" "f")))))
    (re.Seq
       (re.Group 3
          (re.Seq (re.Cls "a" "f")
             (re.Seq (re.Star (re.Group 4 (re.Seq (re.Cls "A" "F") (re.Cls "a" "f"))))
                     (re.Opt (re.Cls "A" "F")))))
       re.Eol).

(** The generator expression [to_move(n) for n in notation]. *)
Fixpoint to_move_each (ns : list string) : result (list nat) :=
  match ns with
  | [] => Ok []
  | n :: ns' =>
      move <- to_move n;;
      rest <- to_move_each ns';;
      Ok (move :: rest)
  end.

Definition to_moves (notation : string) : result (list nat) :=
  match re.match_ moves_pattern notation with
  | None => Raise ValueError
  | Some _ => to_move_each (chars notation)
  end.

(** ['((?:[1-4]?[0-9]-){14})(S|N)$'] *)
Definition position_pattern : re.regex :=
  re.Seq
    (re.Group 1
       (re.Rep 14
          (re.Seq (re.Opt (re.Cls "1" "4"))
             (re.Seq (re.Cls "0" "9") (re.Chr "-")))))
    (re.Seq (re.Group 2 (re.Alt (re.Chr "S") (re.Chr "N"))) re.Eol).

(** The loop [for seeds in houses: board.append(int(seeds))]. *)
Fixpoint int_each (houses : list string) : result (list Z) :=
  match houses with
  | [] => Ok []
  | seeds :: houses' =>
      n <- int seeds;;
      rest <- int_each houses';;
      Ok (n :: rest)
  end.

Definition to_position (notation : string) : result (list Z * Z) :=
  match re.match_ position_pattern notation with
  | None => Raise ValueError
  | Some m =>
      g2 <- re.group m 2;;
      let turn := if String.eqb "N" g2 then NORTH else SOUTH in
      g1 <- re.group m 1;;
      houses <- pop (split "-" g1);;
      board <- int_each houses;;
      Ok (board, turn)
  end.

End Oware.

(** ** engine.py: the search *)

Module Engine.

(** The methods the engine calls on [self._game]. *)
Record game : Type := Game {
  is_end : list Z -> Z -> result bool;
  get_score : list Z -> result Z;
  get_final_score : list Z -> result Z;
  xlegal_moves : list Z -> Z -> result (list nat);
  compute_board : list Z -> nat -> result (list Z)
}.

Definition __INFINITY : Z := 1000.

(** Values stored in the [_line] dictionary: [dict.fromkeys] stores [None],
    the search stores [True]. *)
Inductive mark : Type := PyNone | PyTrue.

(** The fields of the engine object that the search reads and writes.
    [calls] is instrumentation: the number of activations of [_search] so
    far.  A write to [_aborted] by the timer thread is not part of a
    [_search] activation; the flag is what the activation reads on entry. *)
Record engine : Type := mkEngine {
  _aborted : bool;
  _line : gmap (list Z * Z) mark;
  calls : nat
}.

Definition set_line (line : gmap (list Z * Z) mark) (self : engine) : engine :=
  mkEngine (_aborted self) line (calls self).

Definition enter (self : engine) : engine :=
  mkEngine (_aborted self) (_line self) (S (calls self)).


(** [stop_computation] *)
Definition stop_computation (self : engine) : engine :=
  mkEngine true (_line self) (calls self).

(** The loop over the legal moves inside [_search]; [search] is the
    recursive call.  Returns the final [alpha]. *)
Fixpoint search_moves
  (search : engine -> list Z -> Z -> Z -> Z -> Z -> result (Z * engine))
  (g : game) (board : list Z) (turn beta depth : Z)
  (moves : list nat) (alpha : Z) (self : engine) : result (Z * engine) :=
  match moves with
  | [] => Ok (alpha, self)
  | cmove :: moves' =>
      cboard <- compute_board g board cmove;;
      r <- search self cboard (- turn) (- beta) (- alpha) (depth - 1);;
      let (value, self) := r in
      let score := - value in
      if score >=? beta then Ok (beta, self)
      else if score >? alpha
           then search_moves search g board turn beta depth moves' score self
           else search_moves search g board turn beta depth moves' alpha self
  end.

(** [_search]; [fuel] bounds the depth of the Python call stack, which
    raises when it is exhausted. *)
Fixpoint _search (fuel : nat) (g : game) (self : engine)
  (board : list Z) (turn alpha beta depth : Z) : result (Z * engine) :=
  match fuel with
  | O => Raise RecursionError
  | S fuel' =>
      let self := enter self in
      if _aborted self then Ok (- __INFINITY, self) else
      let position := (board, turn) in
      ended <- is_end g board turn;;
      if ended || bool_decide (is_Some (_line self !! position)) then
        final <- get_final_score g board;;
        Ok (turn * final, self)
      else if depth =? 0 then
        score <- get_score g board;;
        Ok (turn * score, self)
      else
        let self := set_line (<[position := PyTrue]> (_line self)) self in
        moves <- xlegal_moves g board turn;;
        r <- search_moves (_search fuel' g) g board turn beta depth
               moves alpha self;;
        let (alpha, self) := r in
        match _line self !! position with
        | None => Raise KeyError
        | Some _ =>
            Ok (alpha, set_line (delete position (_line self)) self)
        end
  end.

(** The engine is created over the Oware rules. *)
Definition oware : game :=
  Game Oware.is_end Oware.get_score Oware.get_final_score
       Oware.xlegal_moves Oware.compute_board.

End Engine.

(** ** Vocabulary of the properties *)

(** The number of seeds in the [n] houses from [lo] on. *)
Definition seeds_in (board : list Z) (lo n : nat) : Z :=
  foldr (fun i acc => board !!! i + acc) 0 (seq lo n).

(** The number of seeds on the board and in the stores. *)
Definition total (board : list Z) : Z := foldr Z.add 0 board.

(** A well-formed board: fourteen non-negative entries. *)
Definition wf_board (board : list Z) : Prop :=
  length board = 14%nat /\ Forall (fun v => 0 <= v) board.

(** The store of the player who owns house [move]. *)
Definition store_of (move : nat) : nat :=
  if (move <? 6)%nat then 12%nat else 13%nat.

(** Positions of a game: the initial board with either side to move, and
    every position a legal move leads to. *)
Inductive reachable : list Z -> Z -> Prop :=
  | reachable_initial (turn : Z) :
      turn = Oware.SOUTH \/ turn = Oware.NORTH ->
      reachable Oware.get_initial_board turn
  | reachable_move (board : list Z) (turn : Z) (moves : list nat)
      (move : nat) (board' : list Z) :
      reachable board turn ->
      Oware.xlegal_moves board turn = Ok moves ->
      move ∈ moves ->
      Oware.compute_board board move = Ok board' ->
      reachable board' (- turn).


(** *** Sowing, without the error plumbing *)

(** One seed dropped in house [h]. *)
Definition drop_seed (new_board : list Z) (h : nat) : list Z :=
  alter (fun v => v + 1) h new_board.

(** The board after a seed was dropped in each of [houses]. *)
Definition sown (houses : list nat) (new_board : list Z) : list Z :=
  foldl drop_seed new_board houses.

(** The houses visited when [k] seeds are sown from house [m]. *)
Definition drill (m k : nat) : list nat :=
  take k (Machinery.SEED_DRILL !!! m).

(** How many seeds each entry receives in that sowing. *)
Definition received (m k : nat) : list Z := sown (drill m k) (replicate 14 0).

(** The house that receives the last seed. *)
Definition landing (m k : nat) : nat := default 0%nat (last (drill m k)).

(** The first house of the row facing the owner of house [m]. *)
Definition opp_base (m : nat) : nat := if (m <? 6)%nat then 6%nat else 0%nat.

(** House [h] is in the row facing the owner of house [m]. *)
Definition faces (m h : nat) : bool :=
  (opp_base m <=? h)%nat && (h <? opp_base m + 6)%nat.

(** What the facing row receives when the last seed, the [c]-th of its
    house, lands on its house number [n]. *)
Definition row_received (n : nat) (c : Z) : list Z :=
  replicate (S n) c ++ replicate (5 - n) (c - 1).

(** The rows the table lists for such a landing. *)
Definition row_forbidden (n : nat) (c : Z) : gset (list Z) :=
  if c =? 1 then list_to_set (Machinery.xboard_positions [1; 2] (n + 1))
  else if (n =? 5)%nat then
    if c =? 2 then list_to_set (Machinery.xboard_positions [0; 1] (n + 1))
    else {[ [0; 0; 0; 0; 0; 0] ]}
  else ∅.

(** The facts about the tables that the capture analysis uses, for [k]
    seeds sown from house [m]. *)
Definition table_facts (m k : nat) : bool :=
  let l := landing m k in
  let cnt := received m k in
  let c := cnt !!! l in
  bool_decide (last (drill m k) = Some l)
  && (l <? 12)%nat
  && bool_decide (length (drill m k) = k)
  && forallb (fun h => (h <? 12)%nat) (drill m k)
  && (11 * (c - 1) <? Z.of_nat k) && (Z.of_nat k <=? 11 * c)
  && bool_decide (slice cnt (opp_base m) (opp_base m + 6)
                  = if faces m l then row_received (l - opp_base m) c
                    else slice cnt (opp_base m) (opp_base m + 6))
  && bool_decide (slice cnt 12 14 = [0; 0])
  && bool_decide ((Machinery.REAPER !! m) ≫= (fun sdict => sdict !! Z.of_nat k)
                  = if faces m l && (c <=? 3)
                    then Some (l, row_forbidden (l - opp_base m) c)
                    else None).

(** Membership in [xboard_positions items len], decided entry by entry. *)
Definition listed (items : list Z) (len : nat) (row : list Z) : bool :=
  forallb (fun v => bool_decide (v ∈ items)) (take len row)
  && bool_decide (length (take len row) = len)
  && bool_decide (drop len row = replicate (6 - len) 0).

(** A house holding two or three seeds. *)
Definition in_capture_range (v : Z) : bool := (2 <=? v) && (v <=? 3).

(** The row, as it stands after sowing, would be emptied by a capture that
    starts on its house number [n]. *)
Definition grand_slam (n : nat) (row : list Z) : bool :=
  forallb in_capture_range (take (S n) row)
  && forallb (fun v => v =? 0) (drop (S n) row).

(** *** Legal moves *)

(** The houses of the player to move. *)
Definition mover_row (turn : Z) : list nat :=
  if turn =? Oware.SOUTH then [0; 1; 2; 3; 4; 5]%nat
  else [6; 7; 8; 9; 10; 11]%nat.

(** The bound of the chained comparison for house [m]: more than
    [reach m - m] seeds reach the facing row. *)
Definition reach (m : nat) : Z := if (m <? 6)%nat then 5 else 11.

(** House [m] may be played: it belongs to the mover, holds seeds and,
    when the facing row is empty, its sowing reaches that row. *)
Definition playable (board : list Z) (turn : Z) (m : nat) : Prop :=
  m ∈ mover_row turn
  /\ exists s, board !! m = Some s /\ 1 <= s
       /\ (slice board (opp_base m) (opp_base m + 6) = Oware._EMPTY_ROW ->
           s > reach m - Z.of_nat m).

(** The answer of [is_capture], false when it raises. *)
Definition captures (board : list Z) (m : nat) : bool :=
  match Oware.is_capture board m with
  | Ok c => c
  | Raise _ => false
  end.

(** The test one scanning loop applies to a house. *)
Definition scanned (guard : nat -> Z -> bool) (capture : bool)
  (board : list Z) (m : nat) : bool :=
  guard m (board !!! m) && eqb (captures board m) capture.

(** The list [xlegal_moves] returns, spelled out. *)
Definition legal_list (b : list Z) (t : Z) : list nat :=
  if t =? Oware.SOUTH then
    List.filter (scanned (Oware.reaches 5) true b) [5; 4; 3; 2; 1; 0]%nat
    ++ (if negb (Oware.row_eqb (slice b 6 12) Oware._EMPTY_ROW) then
          List.filter (scanned (fun _ s => (0 <? s) && (s <? 3)) false b)
            [0; 1; 2; 3; 4; 5]%nat
          ++ List.filter (scanned (fun _ s => s >? 2) false b)
               [0; 1; 2; 3; 4; 5]%nat
        else List.filter (scanned (Oware.reaches 5) false b)
               [0; 1; 2; 3; 4; 5]%nat)
  else
    List.filter (scanned (Oware.reaches 11) true b) [11; 10; 9; 8; 7; 6]%nat
    ++ (if negb (Oware.row_eqb (slice b 0 6) Oware._EMPTY_ROW) then
          List.filter (scanned (fun _ s => (0 <? s) && (s <? 3)) false b)
            [6; 7; 8; 9; 10; 11]%nat
          ++ List.filter (scanned (fun _ s => s >? 2) false b)
               [6; 7; 8; 9; 10; 11]%nat
        else List.filter (scanned (Oware.reaches 11) false b)
               [6; 7; 8; 9; 10; 11]%nat).

(** *** The search *)

(** What an activation keeps of the engine: the abort flag and the line. *)
Definition keeps (self self' : Engine.engine) : Prop :=
  Engine._line self' = Engine._line self
  /\ Engine._aborted self' = Engine._aborted self.

(** *** Move letters *)

Section StarLoop.

Variable body :
  string -> re.groups -> (string -> re.groups -> option re.groups) ->
  option re.groups.
Variable k : string -> re.groups -> option re.groups.

(** The iterations of a starred pattern, with [body] the matcher of the
    starred pattern and [k] what follows: the loop inside [re.run]. *)
Fixpoint star_loop (fuel : nat) (s : string) (g : re.groups)
  : option re.groups :=
  match fuel with
  | O => k s g
  | S fuel' =>
      match body s g (fun s' g' =>
              if (String.length s' <? String.length s)%nat
              then star_loop fuel' s' g' else None) with
      | Some m => Some m
      | None => k s g
      end
  end.

End StarLoop.

(** A letter of SOUTH's houses, [A] to [F]. *)
Definition upper (c : ascii) : Prop :=
  (65 <= nat_of_ascii c <= 70)%nat.

(** A letter of NORTH's houses, [a] to [f]. *)
Definition lower (c : ascii) : Prop :=
  (97 <= nat_of_ascii c <= 102)%nat.

(** Letters that alternate between the two rows, the first one being of
    SOUTH when [south] is true and of NORTH otherwise. *)
Fixpoint alternates (south : bool) (s : string) : Prop :=
  match s with
  | EmptyString => True
  | String c s' =>
      (if south then upper c else lower c) /\ alternates (negb south) s'
  end.

(** Moves that alternate between the two rows, the first one being of
    SOUTH when [south] is true and of NORTH otherwise. *)
Fixpoint moves_alternate (south : bool) (moves : list Z) : Prop :=
  match moves with
  | [] => True
  | m :: moves' =>
      (if south then m <= 5 else 6 <= m) /\ moves_alternate (negb south) moves'
  end.

(** *** Boards and texts of the scenarios *)

(** The board of the immediate-capture scenario. *)
Definition scenario_board : list Z := [0;0;0;0;0;1; 1;0;0;0;0;0; 0;0].

(** A board on which house 0 sows 17 seeds and ends on a house holding one. *)
Definition clamp_board : list Z := [17;2;2;2;2;2; 1;4;4;4;4;4; 0;0].

Local Open Scope string_scope.

(** Every item followed by a dash. *)
Definition dashed (l : list string) : string :=
  foldr (fun s acc => s ++ "-" ++ acc) "" l.

(** One house of the position pattern: [[1-4]?[0-9]-]. *)
Definition item : re.regex :=
  re.Seq (re.Opt (re.Cls "1" "4")) (re.Seq (re.Cls "0" "9") (re.Chr "-")).

Local Close Scope string_scope.

(** * Properties *)

(** ** The tables and the opening position, evaluated *)

Example SEED_DRILL_0 :
  Machinery.SEED_DRILL !! 0%nat
  = Some (take 48 (times [1;2;3;4;5;6;7;8;9;10;11]%nat 5)).
Proof. reflexivity. Qed.

Example HARVESTER_9 : Machinery.HARVESTER !! 9%nat = Some [9; 8; 7; 6]%nat.
Proof. reflexivity. Qed.

Example compute_board_opening :
  Oware.compute_board Oware.get_initial_board 2
  = Ok [4;4;0;5;5;5;5;4;4;4;4;4;0;0].
Proof. vm_compute. reflexivity. Qed.

Example is_capture_opening :
  Oware.is_capture Oware.get_initial_board 2 = Ok false.
Proof. vm_compute. reflexivity. Qed.

(** ** The error monad and the sequence primitives *)

Lemma bind_Ok {A B : Type} (m : result A) (k : A -> result B) (b : B) :
  bind m k = Ok b <-> exists a, m = Ok a /\ k a = Ok b.
Proof.
  destruct m as [a|e]; simpl; split.
  - intros H. exists a. auto.
  - intros (a' & Ha & Hk). congruence.
  - discriminate.
  - intros (a' & Ha & _). discriminate.
Qed.

Lemma getitem_Ok {A : Type} (l : list A) (i : nat) (x : A) :
  getitem l i = Ok x <-> l !! i = Some x.
Proof.
  unfold getitem. destruct (l !! i); split; intros H; congruence.
Qed.

Lemma getitem_lookup {A : Type} (l : list A) (i : nat) (x : A) :
  l !! i = Some x -> getitem l i = Ok x.
Proof. apply getitem_Ok. Qed.

Lemma setitem_lt {A : Type} (l : list A) (i : nat) (x : A) :
  (i < length l)%nat -> setitem l i x = Ok (<[i := x]> l).
Proof.
  intros H. unfold setitem.
  destruct (Nat.ltb_spec i (length l)); [reflexivity | lia].
Qed.

(** A list of fourteen entries is fourteen entries. *)
Lemma length_14 {A : Type} (l : list A) :
  length l = 14%nat ->
  exists a0 a1 a2 a3 a4 a5 a6 a7 a8 a9 a10 a11 a12 a13,
    l = [a0; a1; a2; a3; a4; a5; a6; a7; a8; a9; a10; a11; a12; a13].
Proof.
  intros H.
  do 14 (destruct l as [|? l]; [discriminate H|]).
  destruct l; [|discriminate H].
  repeat eexists.
Qed.

Ltac board_entries b H :=
  let a0 := fresh b "0" in let a1 := fresh b "1" in let a2 := fresh b "2" in
  let a3 := fresh b "3" in let a4 := fresh b "4" in let a5 := fresh b "5" in
  let a6 := fresh b "6" in let a7 := fresh b "7" in let a8 := fresh b "8" in
  let a9 := fresh b "9" in let a10 := fresh b "10" in
  let a11 := fresh b "11" in let a12 := fresh b "12" in
  let a13 := fresh b "13" in
  destruct (length_14 _ H)
    as (a0 & a1 & a2 & a3 & a4 & a5 & a6 & a7 & a8 & a9 & a10 & a11 & a12 & a13 & ->).

Ltac moves_below H :=
  repeat (match type of H with
          | (?m < _)%nat => destruct m as [|m]; [| apply Nat.succ_lt_mono in H]
          end);
  try (exfalso; lia).

(** ** C3: the immediate-capture scenario *)

(** C3, as stated, fails: the result is not the all-empty board with two
    seeds in SOUTH's store. *)
Lemma immediate_capture_is_refused :
  Oware.compute_board scenario_board 5 <> Ok [0;0;0;0;0;0; 0;0;0;0;0;0; 2;0].
Proof. vm_compute. discriminate. Qed.

(** C3, amended: on the board (0,0,0,0,0,1, 1,0,0,0,0,0, 0,0) the move 5
    would empty NORTH's row, so the capture is discarded: house 6 keeps its
    two seeds, SOUTH's store stays 0, and [is_capture] answers false. *)
Theorem immediate_capture_scenario :
  Oware.compute_board scenario_board 5 = Ok [0;0;0;0;0;0; 2;0;0;0;0;0; 0;0]
  /\ Oware.is_capture scenario_board 5 = Ok false.
Proof. split; vm_compute; reflexivity. Qed.

(** ** C6: endgame normalisation *)

(** C6: [get_final_board] returns the board unchanged when a store exceeds
    24 or both stores hold 24; otherwise it returns twelve empty houses, with
    SOUTH's store increased by houses 0..5 and NORTH's by houses 6..11. *)
Theorem get_final_board_spec (b : list Z) :
  length b = 14%nat ->
  exists s n, b !! 12%nat = Some s /\ b !! 13%nat = Some n /\
    (s > 24 \/ n > 24 \/ (s = 24 /\ n = 24) ->
       Oware.get_final_board b = Ok b) /\
    (~ (s > 24 \/ n > 24 \/ (s = 24 /\ n = 24)) ->
       Oware.get_final_board b =
         Ok (replicate 12 0 ++ [s + seeds_in b 0 6; n + seeds_in b 6 6])).
Proof.
  intros H. board_entries b H.
  exists b12, b13. split; [reflexivity|]. split; [reflexivity|].
  unfold Oware.get_final_board; simpl.
  destruct (Z.gtb_spec b12 24), (Z.gtb_spec b13 24); simpl;
    try (split; [reflexivity | intros Hn; exfalso; apply Hn; lia]).
  destruct (Z.eqb_spec b12 b13), (Z.eqb_spec b13 24); simpl;
    try (split; [reflexivity | intros Hn; exfalso; apply Hn; lia]);
    (split; [intros Hc; exfalso; lia | intros _]);
    unfold sum, seeds_in; cbn; rewrite !Z.add_0_r, !Z.add_assoc; reflexivity.
Qed.

Lemma get_final_board_spec_witness :
  exists s n, [1;0;2;0;0;3; 0;4;0;0;5;0; 20;13] !! 12%nat = Some s
    /\ [1;0;2;0;0;3; 0;4;0;0;5;0; 20;13] !! 13%nat = Some n /\
    (s > 24 \/ n > 24 \/ (s = 24 /\ n = 24) ->
       Oware.get_final_board [1;0;2;0;0;3; 0;4;0;0;5;0; 20;13]
       = Ok [1;0;2;0;0;3; 0;4;0;0;5;0; 20;13]) /\
    (~ (s > 24 \/ n > 24 \/ (s = 24 /\ n = 24)) ->
       Oware.get_final_board [1;0;2;0;0;3; 0;4;0;0;5;0; 20;13] =
         Ok (replicate 12 0 ++
               [s + seeds_in [1;0;2;0;0;3; 0;4;0;0;5;0; 20;13] 0 6;
                n + seeds_in [1;0;2;0;0;3; 0;4;0;0;5;0; 20;13] 6 6])).
Proof. apply (get_final_board_spec [1;0;2;0;0;3; 0;4;0;0;5;0; 20;13]). reflexivity. Defined.

(** ** Sowing *)

Lemma insert_drop_seed (nb : list Z) (h : nat) (v : Z) :
  nb !! h = Some v -> <[h := v + 1]> nb = drop_seed nb h.
Proof.
  revert h. induction nb as [|x nb IH]; intros [|h] H; simpl in *;
    try discriminate.
  - injection H as ->. reflexivity.
  - unfold drop_seed in IH. cbn. f_equal. apply IH, H.
Qed.

Lemma length_drop_seed (nb : list Z) (h : nat) :
  length (drop_seed nb h) = length nb.
Proof. apply length_alter. Qed.

Lemma length_sown (houses : list nat) (nb : list Z) :
  length (sown houses nb) = length nb.
Proof.
  unfold sown. revert nb. induction houses as [|h houses IH]; intros nb; simpl.
  - reflexivity.
  - rewrite IH. apply length_drop_seed.
Qed.

Lemma sow_sown (houses : list nat) (nb : list Z) (h0 : option nat) :
  Forall (fun h => (h < length nb)%nat) houses ->
  Oware.sow houses nb h0
  = Ok (sown houses nb, from_option Some h0 (last houses)).
Proof.
  revert nb h0. induction houses as [|h houses IH]; intros nb h0 Hall.
  - reflexivity.
  - apply Forall_cons in Hall as [Hh Hall].
    destruct (lookup_lt_is_Some_2 nb h Hh) as [v Hv].
    simpl. rewrite (getitem_lookup _ _ _ Hv). simpl.
    rewrite (setitem_lt _ _ _ Hh). simpl.
    rewrite (insert_drop_seed _ _ _ Hv).
    rewrite IH by (rewrite length_drop_seed; exact Hall).
    rewrite (last_cons h houses). destruct (last houses); reflexivity.
Qed.

Lemma total_drop_seed (nb : list Z) (h : nat) :
  (h < length nb)%nat -> total (drop_seed nb h) = total nb + 1.
Proof.
  revert h. induction nb as [|x nb IH]; intros h Hh; simpl in Hh; [lia|].
  destruct h as [|h]; cbn.
  - unfold total. lia.
  - unfold drop_seed, total in *. rewrite IH by lia. lia.
Qed.

Lemma total_sown (houses : list nat) (nb : list Z) :
  Forall (fun h => (h < length nb)%nat) houses ->
  total (sown houses nb) = total nb + Z.of_nat (length houses).
Proof.
  unfold sown. revert nb. induction houses as [|h houses IH]; intros nb Hall.
  - simpl. lia.
  - apply Forall_cons in Hall as [Hh Hall]. simpl foldl.
    rewrite IH by (rewrite length_drop_seed; exact Hall).
    rewrite total_drop_seed by exact Hh. simpl length. lia.
Qed.

Lemma sown_nonneg (houses : list nat) (nb : list Z) :
  Forall (fun v => 0 <= v) nb -> Forall (fun v => 0 <= v) (sown houses nb).
Proof.
  unfold sown. revert nb. induction houses as [|h houses IH]; intros nb Hnb; simpl.
  - exact Hnb.
  - apply IH. apply Forall_alter; [exact Hnb|]. intros; lia.
Qed.

(** Sowing adds to the board what it adds to an empty board. *)
Lemma drop_seed_zip (nb cnt : list Z) (h : nat) :
  drop_seed (zip_with Z.add nb cnt) h = zip_with Z.add nb (drop_seed cnt h).
Proof.
  revert cnt h. induction nb as [|x nb IH]; intros [|c cnt] [|h]; try reflexivity.
  - cbn. f_equal. lia.
  - cbn. f_equal. apply IH.
Qed.

Lemma sown_zip (houses : list nat) (nb cnt : list Z) :
  sown houses (zip_with Z.add nb cnt) = zip_with Z.add nb (sown houses cnt).
Proof.
  unfold sown. revert cnt. induction houses as [|h houses IH]; intros cnt; simpl.
  - reflexivity.
  - rewrite drop_seed_zip. apply IH.
Qed.

Lemma zip_add_zeros (nb : list Z) :
  zip_with Z.add nb (replicate (length nb) 0) = nb.
Proof. induction nb as [|x nb IH]; simpl; [reflexivity|]. f_equal; [lia|exact IH]. Qed.

Lemma sown_received (houses : list nat) (nb : list Z) :
  sown houses nb
  = zip_with Z.add nb (sown houses (replicate (length nb) 0)).
Proof. rewrite <- sown_zip, zip_add_zeros. reflexivity. Qed.

(** ** Gathering *)

Lemma total_insert (l : list Z) (i : nat) (x y : Z) :
  l !! i = Some y -> total (<[i := x]> l) = total l - y + x.
Proof.
  revert i. induction l as [|a l IH]; intros [|i] H; simpl in *;
    try discriminate.
  - injection H as ->. unfold total. simpl. lia.
  - unfold total in *. cbn. rewrite (IH _ H). lia.
Qed.

Lemma harvest_total (store : nat) (chain : list nat) (bc : list Z) :
  (store < length bc)%nat ->
  Forall (fun h => (h < length bc)%nat /\ h <> store) chain ->
  exists bc', Oware.harvest store chain bc = Ok bc'
    /\ length bc' = length bc
    /\ total bc' = total bc
    /\ (Forall (fun v => 0 <= v) bc -> Forall (fun v => 0 <= v) bc').
Proof.
  revert bc. induction chain as [|h chain IH]; intros bc Hs Hall.
  - exists bc. simpl. auto.
  - apply Forall_cons in Hall as [[Hh Hne] Hall].
    destruct (lookup_lt_is_Some_2 bc h Hh) as [v Hv].
    destruct (lookup_lt_is_Some_2 bc store Hs) as [s Hsv].
    simpl. rewrite (getitem_lookup _ _ _ Hv). simpl.
    destruct ((4 >? v) && (v >? 1)) eqn:Hv23; simpl.
    + rewrite (getitem_lookup _ _ _ Hsv). simpl.
      rewrite (setitem_lt _ _ _ Hs). simpl.
      rewrite setitem_lt by (rewrite length_insert; exact Hh). simpl.
      destruct (IH (<[h := 0]> (<[store := s + v]> bc))) as (bc' & E & L & T & N).
      * rewrite !length_insert. exact Hs.
      * rewrite !length_insert. exact Hall.
      * exists bc'. split; [exact E|].
        rewrite !length_insert in L. split; [exact L|]. split.
        -- rewrite T.
           rewrite (total_insert _ h 0 v)
             by (rewrite list_lookup_insert_ne by congruence; exact Hv).
           rewrite (total_insert _ store (s + v) s) by exact Hsv. lia.
        -- intros Hnn. apply N.
           apply andb_true_iff in Hv23 as [_ Hv1]. apply Z.gtb_lt in Hv1.
           apply Forall_insert; [|lia].
           apply Forall_insert; [exact Hnn|].
           assert (0 <= s) by (eapply (Forall_lookup_1 _ bc); eauto).
           lia.
    + exists bc. auto.
Qed.

(** ** The tables *)

Lemma seed_drill_lookup (m : nat) :
  (m < 12)%nat ->
  exists d, Machinery.SEED_DRILL !! m = Some d /\ length d = 48%nat
    /\ Forall (fun h => (h < 12)%nat) d.
Proof.
  intros H. moves_below H; eexists; (split; [reflexivity|]);
    (split; [reflexivity|]); apply (bool_decide_unpack _); vm_compute; exact I.
Qed.

Lemma harvester_lookup (h : nat) :
  (h < 12)%nat ->
  exists chain, Machinery.HARVESTER !! h = Some chain
    /\ Forall (fun h => (h < 12)%nat) chain.
Proof.
  intros H. moves_below H; eexists; (split; [reflexivity|]);
    apply (bool_decide_unpack _); vm_compute; exact I.
Qed.

(** ** [compute_board] returns a board *)

Lemma gather_total (m l : nat) (nb : list Z) :
  length nb = 14%nat -> (l < 12)%nat ->
  exists b', Oware.gather m l nb = Ok b'
    /\ length b' = 14%nat
    /\ total b' = total nb
    /\ (Forall (fun v => 0 <= v) nb -> Forall (fun v => 0 <= v) b').
Proof.
  intros Hlen Hl.
  destruct (lookup_lt_is_Some_2 nb l) as [v Hv]; [lia|].
  destruct (harvester_lookup l Hl) as (chain & Hc & Hall).
  assert (Hchain : forall store, (12 <= store < 14)%nat ->
            exists bc', Oware.harvest store chain nb = Ok bc'
              /\ length bc' = length nb /\ total bc' = total nb
              /\ (Forall (fun v => 0 <= v) nb -> Forall (fun v => 0 <= v) bc')).
  { intros store Hs. apply harvest_total; [lia|].
    eapply Forall_impl; [exact Hall|]. simpl. intros; lia. }
  unfold Oware.gather. rewrite (getitem_lookup _ _ _ Hv). simpl.
  unfold Oware._HARVESTER. rewrite (getitem_lookup _ _ _ Hc). simpl.
  destruct ((4 >? v) && (v >? 1)); [|exists nb; auto].
  destruct ((m <? 6)%nat && (5 <? l)%nat).
  - destruct (Hchain 12%nat) as (bc' & -> & L & T & N); [lia|]. simpl.
    destruct (negb _); [exists bc' | exists nb]; rewrite ?L; auto.
  - destruct ((5 <? m)%nat && (l <? 6)%nat); [|exists nb; auto].
    destruct (Hchain 13%nat) as (bc' & -> & L & T & N); [lia|]. simpl.
    destruct (negb _); [exists bc' | exists nb]; rewrite ?L; auto.
Qed.

Lemma slice_to_pos {A : Type} (l : list A) (s : Z) :
  0 <= s -> slice_to l s = take (Z.to_nat s) l.
Proof. intros H. unfold slice_to. destruct (Z.ltb_spec s 0); [lia|reflexivity]. Qed.

Lemma compute_board_total (b : list Z) (m : nat) (s : Z) :
  length b = 14%nat -> (m < 12)%nat -> b !! m = Some s -> 1 <= s ->
  exists b', Oware.compute_board b m = Ok b'
    /\ length b' = 14%nat
    /\ total b' = total b - s + Z.of_nat (Z.to_nat s `min` 48)
    /\ (Forall (fun v => 0 <= v) b -> Forall (fun v => 0 <= v) b').
Proof.
  intros Hlen Hm Hs Hpos.
  destruct (seed_drill_lookup m Hm) as (d & Hd & Hd48 & Hall).
  unfold Oware.compute_board, Oware._SEED_DRILL.
  rewrite setitem_lt by lia. simpl.
  rewrite (getitem_lookup _ _ _ Hd). simpl.
  rewrite (getitem_lookup _ _ _ Hs). simpl.
  rewrite slice_to_pos by lia.
  set (houses := take (Z.to_nat s) d).
  assert (Hh : Forall (fun h => (h < 12)%nat) houses) by (apply Forall_take, Hall).
  rewrite sow_sown
    by (rewrite length_insert, Hlen; eapply Forall_impl; [exact Hh|]; simpl; intros; lia).
  simpl.
  assert (Hne : houses <> []).
  { intros E. apply (f_equal length) in E. unfold houses in E.
    rewrite length_take, Hd48 in E. simpl in E. lia. }
  apply last_is_Some in Hne as [l Hl]. rewrite Hl. simpl.
  assert (Hl12 : (l < 12)%nat).
  { rewrite Forall_forall in Hh. apply Hh. apply last_Some_elem_of, Hl. }
  destruct (gather_total m l (sown houses (<[m := 0]> b))) as (b' & E & L & T & N);
    [rewrite length_sown, length_insert; exact Hlen | exact Hl12 |].
  exists b'. split; [exact E|]. split; [exact L|]. split.
  - rewrite T, total_sown
      by (rewrite length_insert, Hlen; eapply Forall_impl; [exact Hh|]; simpl; intros; lia).
    rewrite (total_insert _ _ _ _ Hs). unfold houses.
    rewrite length_take, Hd48. lia.
  - intros Hnn. apply N, sown_nonneg, Forall_insert; [exact Hnn | lia].
Qed.

(** ** C10: the precondition of [compute_board] *)

(** C10: on a board of 14 entries and a move in 0..11, [compute_board]
    raises the unbound-variable error when the house is empty, and returns
    a board of 14 entries when it holds at least one seed. *)
Theorem compute_board_precondition (b : list Z) (m : nat) :
  length b = 14%nat -> (m < 12)%nat ->
  (b !! m = Some 0 -> Oware.compute_board b m = Raise UnboundLocalError)
  /\ (forall s, b !! m = Some s -> 1 <= s ->
        exists b', Oware.compute_board b m = Ok b' /\ length b' = 14%nat).
Proof.
  intros Hlen Hm. split.
  - intros Hs. destruct (seed_drill_lookup m Hm) as (d & Hd & _).
    unfold Oware.compute_board, Oware._SEED_DRILL.
    rewrite setitem_lt by lia. simpl.
    rewrite (getitem_lookup _ _ _ Hd). simpl.
    rewrite (getitem_lookup _ _ _ Hs). reflexivity.
  - intros s Hs Hpos.
    destruct (compute_board_total b m s Hlen Hm Hs Hpos) as (b' & E & L & _).
    exists b'. auto.
Qed.

Lemma compute_board_precondition_witness :
  ([0;3;0;0;0;0; 1;0;0;0;0;0; 20;24] !! 0%nat = Some 0 ->
     Oware.compute_board [0;3;0;0;0;0; 1;0;0;0;0;0; 20;24] 0
     = Raise UnboundLocalError)
  /\ (forall s, [0;3;0;0;0;0; 1;0;0;0;0;0; 20;24] !! 0%nat = Some s -> 1 <= s ->
        exists b', Oware.compute_board [0;3;0;0;0;0; 1;0;0;0;0;0; 20;24] 0 = Ok b'
                   /\ length b' = 14%nat).
Proof.
  apply (compute_board_precondition [0;3;0;0;0;0; 1;0;0;0;0;0; 20;24] 0);
    [reflexivity | lia].
Defined.

(** ** Legal moves and reachable positions *)

Lemma scan_elem (guard : nat -> Z -> bool) (c : bool) (b : list Z)
  (moves ms : list nat) (m : nat) :
  Oware.scan guard c b moves = Ok ms -> m ∈ ms ->
  m ∈ moves /\ exists s, b !! m = Some s /\ guard m s = true
    /\ Oware.is_capture b m = Ok c.
Proof.
  revert ms. induction moves as [|x moves IH]; intros ms H Hin; simpl in H.
  - injection H as <-. inversion Hin.
  - apply bind_Ok in H as (s & Hs & H). apply getitem_Ok in Hs.
    apply bind_Ok in H as (y & Hy & H).
    apply bind_Ok in H as (rest & Hrest & H). injection H as <-.
    assert (Hrec : m ∈ rest -> m ∈ x :: moves /\ exists s, b !! m = Some s
              /\ guard m s = true /\ Oware.is_capture b m = Ok c).
    { intros Hr. destruct (IH rest Hrest Hr) as [? ?]. split; [|assumption].
      apply elem_of_cons. auto. }
    destruct y; [|auto].
    apply elem_of_cons in Hin as [->|Hin]; [|auto].
    split; [apply elem_of_cons; auto|].
    destruct (guard x s) eqn:Hg; [|discriminate].
    apply bind_Ok in Hy as (c' & Hc & Hy). injection Hy as Hy.
    apply eqb_prop in Hy. subst c'. exists s. auto.
Qed.

Lemma legal_move_seeds (b : list Z) (t : Z) (ms : list nat) (m : nat) :
  Oware.xlegal_moves b t = Ok ms -> m ∈ ms ->
  (m < 12)%nat /\ exists s, b !! m = Some s /\ 1 <= s.
Proof.
  intros H Hin. unfold Oware.xlegal_moves in H.
  assert (Hscan : forall guard c moves ms',
            (forall m s, guard m s = true -> 1 <= s) ->
            Forall (fun h => (h < 12)%nat) moves ->
            Oware.scan guard c b moves = Ok ms' -> m ∈ ms' ->
            (m < 12)%nat /\ exists s, b !! m = Some s /\ 1 <= s).
  { intros guard c moves ms' Hg Hmoves Hs Hm.
    destruct (scan_elem _ _ _ _ _ _ Hs Hm) as (Hmem & s & Hsm & Hgs & _).
    split; [rewrite Forall_forall in Hmoves; auto|].
    exists s. split; [exact Hsm|]. eapply Hg, Hgs. }
  assert (G1 : forall bound m s, Oware.reaches bound m s = true -> 1 <= s).
  { unfold Oware.reaches. intros bound m' s Hr.
    apply andb_true_iff in Hr as [Hr _]. apply Z.ltb_lt in Hr. lia. }
  assert (G2 : forall (m : nat) s, (0 <? s) && (s <? 3) = true -> 1 <= s).
  { intros m' s Hr. apply andb_true_iff in Hr as [Hr _]. apply Z.ltb_lt in Hr. lia. }
  assert (G3 : forall (m : nat) s, (s >? 2) = true -> 1 <= s).
  { intros m' s Hr. apply Z.gtb_lt in Hr. lia. }
  assert (FS : Forall (fun h => (h < 12)%nat) [5; 4; 3; 2; 1; 0]%nat)
    by (repeat constructor; lia).
  assert (FS' : Forall (fun h => (h < 12)%nat) [0; 1; 2; 3; 4; 5]%nat)
    by (repeat constructor; lia).
  assert (FN : Forall (fun h => (h < 12)%nat) [11; 10; 9; 8; 7; 6]%nat)
    by (repeat constructor; lia).
  assert (FN' : Forall (fun h => (h < 12)%nat) [6; 7; 8; 9; 10; 11]%nat)
    by (repeat constructor; lia).
  destruct (t =? Oware.SOUTH);
    apply bind_Ok in H as (caps & Hcaps & H);
    destruct (negb _);
    repeat (apply bind_Ok in H as (? & ? & H));
    injection H as <-;
    repeat (apply elem_of_app in Hin as [Hin|Hin]);
    match goal with
    | Hs : Oware.scan ?g ?c b ?mv = Ok ?l, Hi : m ∈ ?l |- _ =>
        apply (Hscan g c mv l);
        [first [exact (G1 _) | exact G2 | exact G3] | assumption
        | exact Hs | exact Hi]
    end.
Qed.

Lemma entry_le_total (l : list Z) (i : nat) (s : Z) :
  Forall (fun v => 0 <= v) l -> l !! i = Some s -> s <= total l.
Proof.
  revert i. induction l as [|x l IH]; intros i Hnn H; [destruct i; discriminate|].
  apply Forall_cons in Hnn as [Hx Hnn]. unfold total in *. simpl.
  destruct i as [|i]; simpl in H.
  - injection H as ->. clear IH.
    assert (0 <= foldr Z.add 0 l); [|lia].
    induction Hnn; simpl; lia.
  - specialize (IH i Hnn H). lia.
Qed.

Lemma sum_total (l : list Z) (start : Z) : sum l start = start + total l.
Proof.
  unfold sum, total. revert start.
  induction l as [|x l IH]; intros start; simpl; [lia|]. rewrite IH. lia.
Qed.

Lemma reachable_invariant (b : list Z) (t : Z) :
  reachable b t -> wf_board b /\ total b = 48.
Proof.
  induction 1 as [t Ht | b t ms m b' Hr [[Hlen Hnn] Htot] Hms Hin Hcb].
  - split; [split|]; [reflexivity | | reflexivity].
    apply (bool_decide_unpack _). vm_compute. exact I.
  - destruct (legal_move_seeds _ _ _ _ Hms Hin) as (Hm & s & Hs & Hpos).
    destruct (compute_board_total b m s Hlen Hm Hs Hpos) as (b2 & E & L & T & N).
    rewrite Hcb in E. injection E as <-.
    pose proof (entry_le_total _ _ _ Hnn Hs).
    split; [split; auto|]. rewrite T. lia.
Qed.

(** ** C4: seed conservation *)

(** C4: on every reachable position and for every legal move,
    [compute_board] returns a board of 14 entries whose sum equals the sum
    of the board it was given, and both are 48. *)
Theorem seed_conservation (b : list Z) (t : Z) (ms : list nat) (m : nat) :
  reachable b t -> Oware.xlegal_moves b t = Ok ms -> m ∈ ms ->
  exists b', Oware.compute_board b m = Ok b'
    /\ length b' = 14%nat
    /\ sum b' 0 = sum b 0 /\ sum b 0 = 48.
Proof.
  intros Hr Hms Hin.
  destruct (reachable_invariant _ _ Hr) as [[Hlen Hnn] Htot].
  destruct (legal_move_seeds _ _ _ _ Hms Hin) as (Hm & s & Hs & Hpos).
  destruct (compute_board_total b m s Hlen Hm Hs Hpos) as (b' & E & L & T & N).
  pose proof (entry_le_total _ _ _ Hnn Hs).
  exists b'. rewrite !sum_total. repeat split; auto; lia.
Qed.

(** ** C2: a Grand Slam capture is discarded *)

Lemma sown_lookup_other (houses : list nat) (nb : list Z) (i : nat) :
  i ∉ houses -> sown houses nb !! i = nb !! i.
Proof.
  unfold sown. revert nb. induction houses as [|h houses IH]; intros nb Hi; simpl.
  - reflexivity.
  - apply not_elem_of_cons in Hi as [Hne Hi]. rewrite IH by exact Hi.
    apply list_lookup_alter_ne. congruence.
Qed.

(** C2: when the sowing of a move with at least one seed ends on the facing
    row on a house that then holds two or three seeds, and walking the
    harvest chain would leave the whole facing row at zero, [compute_board]
    returns the board of the pure sowing: the facing houses keep their sown
    values and the mover's store is unchanged. *)
Theorem grand_slam_discarded (b : list Z) (m : nat) (s : Z) (l : nat) (v : Z)
  (chain : list nat) (bc : list Z) :
  length b = 14%nat -> (m < 12)%nat -> b !! m = Some s -> 1 <= s ->
  let houses := slice_to (Machinery.SEED_DRILL !!! m) s in
  let nb := sown houses (<[m := 0]> b) in
  last houses = Some l ->
  faces m l = true ->
  nb !! l = Some v -> 2 <= v <= 3 ->
  Machinery.HARVESTER !! l = Some chain ->
  Oware.harvest (store_of m) chain nb = Ok bc ->
  slice bc (opp_base m) (opp_base m + 6) = [0; 0; 0; 0; 0; 0] ->
  Oware.compute_board b m = Ok nb
  /\ nb !! store_of m = b !! store_of m
  /\ slice nb (opp_base m) (opp_base m + 6)
     = slice (sown houses (<[m := 0]> b)) (opp_base m) (opp_base m + 6).
Proof.
  intros Hlen Hm Hs Hpos houses nb Hlast Hf Hv Hv23 Hc Hh Hrow.
  destruct (seed_drill_lookup m Hm) as (d & Hd & Hd48 & Hall).
  assert (Ed : Machinery.SEED_DRILL !!! m = d)
    by (apply list_lookup_total_correct, Hd).
  assert (Hh12 : Forall (fun h => (h < 12)%nat) houses).
  { unfold houses. rewrite Ed, slice_to_pos by lia. apply Forall_take, Hall. }
  split; [|split; [|reflexivity]].
  - unfold Oware.compute_board, Oware._SEED_DRILL.
    rewrite setitem_lt by lia. simpl.
    rewrite (getitem_lookup _ _ _ Hd). simpl.
    rewrite (getitem_lookup _ _ _ Hs). simpl.
    rewrite <- Ed. fold houses.
    rewrite sow_sown
      by (rewrite length_insert, Hlen; eapply Forall_impl; [exact Hh12|];
          simpl; intros; lia).
    simpl. rewrite Hlast. simpl. fold nb.
    unfold Oware.gather, Oware._HARVESTER.
    rewrite (getitem_lookup _ _ _ Hv). simpl.
    rewrite (getitem_lookup _ _ _ Hc). simpl.
    assert (T : (4 >? v) && (v >? 1) = true).
    { apply andb_true_iff. split; apply Z.gtb_lt; lia. }
    rewrite T. unfold faces, opp_base, store_of in *.
    unfold Oware.row_eqb, Oware._EMPTY_ROWL.
    destruct (Nat.ltb_spec m 6).
    + apply andb_true_iff in Hf as [Hf1 Hf2]. apply Nat.leb_le in Hf1.
      replace (5 <? l)%nat with true by (symmetry; apply Nat.ltb_lt; lia).
      change (6 + 6)%nat with 12%nat in Hrow.
      simpl. rewrite Hh. simpl. rewrite Hrow.
      rewrite bool_decide_eq_true_2 by reflexivity. reflexivity.
    + apply andb_true_iff in Hf as [Hf1 Hf2]. apply Nat.ltb_lt in Hf2.
      replace (5 <? m)%nat with true by (symmetry; apply Nat.ltb_lt; lia).
      replace (l <? 6)%nat with true by (symmetry; apply Nat.ltb_lt; lia).
      change (0 + 6)%nat with 6%nat in Hrow.
      simpl. rewrite Hh. simpl. rewrite Hrow.
      rewrite bool_decide_eq_true_2 by reflexivity. reflexivity.
  - unfold nb. rewrite sown_lookup_other.
    + apply list_lookup_insert_ne. unfold store_of.
      destruct (m <? 6)%nat; lia.
    + intros Hin. rewrite Forall_forall in Hh12. apply Hh12 in Hin.
      unfold store_of in Hin. destruct (m <? 6)%nat; lia.
Qed.

Lemma grand_slam_discarded_witness :
  Oware.compute_board scenario_board 5 = Ok [0;0;0;0;0;0; 2;0;0;0;0;0; 0;0]
  /\ [0;0;0;0;0;0; 2;0;0;0;0;0; 0;0] !! 12%nat = scenario_board !! 12%nat.
Proof.
  destruct (grand_slam_discarded scenario_board 5 1 6 2 [6%nat]
              [0;0;0;0;0;0; 0;0;0;0;0;0; 2;0]) as (H1 & H2 & _);
    try reflexivity; try lia.
  split; [exact H1 | exact H2].
Defined.

(** ** C5: the second disjunct of the disposition test *)



(** ** C7: a repeated position closes the search *)

Lemma any_reaches_total (bound : Z) (b : list Z) (houses : list nat) :
  Forall (fun h => (h < length b)%nat) houses ->
  exists r, Oware.any_reaches bound b houses = Ok r.
Proof.
  induction 1 as [|h houses Hh _ IH]; simpl; [eauto|].
  destruct (lookup_lt_is_Some_2 b h Hh) as [v Hv].
  rewrite (getitem_lookup _ _ _ Hv). simpl.
  destruct (Oware.reaches bound h v); eauto.
Qed.

Lemma has_legal_moves_total (b : list Z) (t : Z) :
  length b = 14%nat -> exists r, Oware.has_legal_moves b t = Ok r.
Proof.
  intros Hlen. unfold Oware.has_legal_moves.
  destruct (t =? Oware.SOUTH); repeat (destruct (negb _); eauto);
    apply any_reaches_total; rewrite Hlen; repeat constructor; lia.
Qed.

Lemma is_end_total (b : list Z) (t : Z) :
  length b = 14%nat -> exists r, Oware.is_end b t = Ok r.
Proof.
  intros Hlen. destruct (has_legal_moves_total b t Hlen) as [r Hr].
  board_entries b Hlen. unfold Oware.is_end. rewrite Hr. simpl.
  destruct (b12 >? 24); [eauto|]. destruct (b13 >? 24); [eauto|].
  destruct r; eauto.
Qed.

Lemma get_final_score_total (b : list Z) :
  length b = 14%nat -> exists f, Oware.get_final_score b = Ok f.
Proof.
  intros Hlen. board_entries b Hlen. unfold Oware.get_final_score. simpl.
  destruct (b12 >? 24); [eauto|]. destruct (b13 >? 24); [eauto|].
  destruct (_ >? 24); [eauto|]. destruct (_ <? 24); eauto.
Qed.

(** C7: with the abort flag unset and the key (board, turn) in the line of
    play, [_search] returns turn * get_final_score(board) in this one
    activation, and the line of play is unchanged. *)
Theorem search_repetition_closure (fuel : nat) (self : Engine.engine)
  (board : list Z) (turn alpha beta depth : Z) :
  length board = 14%nat -> 0 <= depth ->
  Engine._aborted self = false ->
  is_Some (Engine._line self !! (board, turn)) ->
  exists final, Oware.get_final_score board = Ok final
    /\ Engine._search (S fuel) Engine.oware self board turn alpha beta depth
       = Ok (turn * final,
             Engine.mkEngine false (Engine._line self) (S (Engine.calls self))).
Proof.
  intros Hlen _ Hab Hin.
  destruct (get_final_score_total board Hlen) as [final Hf].
  destruct (is_end_total board turn Hlen) as [e He].
  exists final. split; [exact Hf|].
  simpl. rewrite Hab. rewrite He. simpl.
  rewrite bool_decide_eq_true_2 by exact Hin.
  rewrite orb_true_r. rewrite Hf. simpl.
  unfold Engine.enter. rewrite Hab. reflexivity.
Qed.

Lemma search_repetition_closure_witness :
  exists final, Oware.get_final_score Oware.get_initial_board = Ok final
    /\ Engine._search 1 Engine.oware
         (Engine.mkEngine false {[ (Oware.get_initial_board, 1) := Engine.PyNone ]} 0)
         Oware.get_initial_board 1 (-1000) 1000 4
       = Ok (1 * final,
             Engine.mkEngine false
               {[ (Oware.get_initial_board, 1) := Engine.PyNone ]} 1).
Proof.
  refine (search_repetition_closure 0
            (Engine.mkEngine false
               {[ (Oware.get_initial_board, 1) := Engine.PyNone ]} 0)
            Oware.get_initial_board 1 (-1000) 1000 4 _ _ _ _).
  - reflexivity.
  - lia.
  - reflexivity.
  - simpl. rewrite lookup_singleton_eq. eauto.
Defined.

(** ** C9: move-sequence notation *)

(** C9: [to_moves] does not reject "AA", a sequence of two moves of the
    same side: the final [$] of the pattern guards only its second branch,
    which does reject "aa". *)
Theorem to_moves_accepts_repeated_side :
  Oware.to_moves "AA" = Ok [0%nat; 0%nat]
  /\ Oware.to_moves "aa" = Raise ValueError.
Proof. split; vm_compute; reflexivity. Qed.

(** ** C1: capture detection agrees with move execution *)

(** *** What the tables hold *)

Lemma all_table_facts :
  forallb (fun m => forallb (fun k => table_facts m k) (seq 1 48)) (seq 0 12)
  = true.
Proof. vm_compute. reflexivity. Qed.

Lemma table_facts_at (m k : nat) :
  (m < 12)%nat -> (1 <= k <= 48)%nat -> table_facts m k = true.
Proof.
  intros Hm Hk. pose proof all_table_facts as H.
  rewrite forallb_forall in H. specialize (H m).
  rewrite forallb_forall in H. apply H; apply in_seq; lia.
Qed.

Lemma table_facts_spec (m k : nat) :
  (m < 12)%nat -> (1 <= k <= 48)%nat ->
  let l := landing m k in
  let cnt := received m k in
  let c := cnt !!! l in
  last (drill m k) = Some l
  /\ (l < 12)%nat
  /\ length (drill m k) = k
  /\ Forall (fun h => (h < 12)%nat) (drill m k)
  /\ 11 * (c - 1) < Z.of_nat k <= 11 * c
  /\ (faces m l = true ->
      slice cnt (opp_base m) (opp_base m + 6) = row_received (l - opp_base m) c)
  /\ slice cnt 12 14 = [0; 0]
  /\ (Machinery.REAPER !! m) ≫= (fun sdict => sdict !! Z.of_nat k)
     = if faces m l && (c <=? 3)
       then Some (l, row_forbidden (l - opp_base m) c) else None.
Proof.
  intros Hm Hk l cnt c. pose proof (table_facts_at m k Hm Hk) as H.
  unfold table_facts in H. fold l cnt c in H.
  repeat (apply andb_true_iff in H as [H ?]).
  repeat match goal with
         | H : bool_decide _ = true |- _ => apply bool_decide_eq_true in H
         end.
  repeat split; try assumption.
  - apply Nat.ltb_lt. assumption.
  - apply Forall_forall. intros h Hh.
    match goal with
    | F : forallb _ _ = true |- _ =>
        rewrite forallb_forall in F; apply Nat.ltb_lt, F, list_elem_of_In, Hh
    end.
  - apply Z.ltb_lt. assumption.
  - apply Z.leb_le. assumption.
  - intros Hf.
    match goal with
    | E : slice cnt (opp_base m) _ = _ |- _ => rewrite Hf in E; exact E
    end.
Qed.

Lemma reaper_lookup (m : nat) :
  (m < 12)%nat -> exists sdict, Machinery.REAPER !! m = Some sdict.
Proof. intros H. moves_below H; eexists; reflexivity. Qed.

(** *** The move, as sowing followed by gathering *)

Lemma compute_board_gather (b : list Z) (m : nat) (s : Z) :
  length b = 14%nat -> (m < 12)%nat -> b !! m = Some s -> 1 <= s <= 48 ->
  Oware.compute_board b m
  = Oware.gather m (landing m (Z.to_nat s))
      (zip_with Z.add (<[m := 0]> b) (received m (Z.to_nat s))).
Proof.
  intros Hlen Hm Hs Hpos.
  destruct (table_facts_spec m (Z.to_nat s) Hm) as (Hl & _ & _ & Hall & _); [lia|].
  destruct (seed_drill_lookup m Hm) as (d & Hd & _).
  unfold Oware.compute_board, Oware._SEED_DRILL.
  rewrite setitem_lt by lia. simpl.
  rewrite (getitem_lookup _ _ _ Hd). simpl.
  rewrite (getitem_lookup _ _ _ Hs). simpl.
  rewrite slice_to_pos by lia.
  replace (take (Z.to_nat s) d) with (drill m (Z.to_nat s))
    by (unfold drill; rewrite (list_lookup_total_correct _ _ _ Hd); reflexivity).
  rewrite sow_sown
    by (rewrite length_insert, Hlen; eapply Forall_impl; [exact Hall|];
        simpl; intros; lia).
  simpl. rewrite Hl. simpl.
  rewrite sown_received, length_insert, Hlen. reflexivity.
Qed.

(** *** The rows the table forbids *)

Lemma in_xselections (items : list Z) (len : nat) (sel : list Z) :
  sel ∈ Machinery.xselections items len
  <-> length sel = len /\ Forall (fun v => v ∈ items) sel.
Proof.
  revert sel. induction len as [|len IH]; intros sel; simpl.
  - rewrite list_elem_of_singleton. split.
    + intros ->. split; [reflexivity | constructor].
    + intros [H _]. destruct sel; [reflexivity | discriminate].
  - rewrite list_elem_of_In, in_flat_map. split.
    + intros (item & Hitem & Hsel). apply list_elem_of_In in Hitem, Hsel.
      apply list_elem_of_fmap in Hsel as (sel' & -> & Hsel').
      apply IH in Hsel' as [Hl Hall]. simpl. split; [lia|].
      constructor; assumption.
    + intros [Hl Hall]. destruct sel as [|item sel']; [discriminate|].
      apply Forall_cons in Hall as [Hitem Hall].
      exists item. split; [apply list_elem_of_In, Hitem|].
      apply list_elem_of_In, list_elem_of_fmap. exists sel'.
      split; [reflexivity|]. apply IH. simpl in Hl. split; [lia | exact Hall].
Qed.

Lemma listed_spec (items : list Z) (len : nat) (row : list Z) :
  row ∈ Machinery.xboard_positions items len <-> listed items len row = true.
Proof.
  unfold Machinery.xboard_positions, listed.
  rewrite list_elem_of_fmap, !andb_true_iff, !bool_decide_eq_true.
  rewrite forallb_forall. split.
  - intros (sel & -> & Hsel). apply in_xselections in Hsel as [Hl Hall].
    rewrite take_app_length' by (symmetry; exact Hl).
    rewrite drop_app_length' by (symmetry; exact Hl).
    split; [split|]; [|exact Hl|reflexivity].
    intros v Hv. apply bool_decide_eq_true.
    rewrite Forall_forall in Hall. apply Hall, list_elem_of_In, Hv.
  - intros [[Hall Hl] Hd]. exists (take len row). split.
    + rewrite <- Hd. symmetry. apply take_drop.
    + apply in_xselections. split; [exact Hl|].
      apply Forall_forall. intros v Hv.
      eapply bool_decide_eq_true_1, Hall, list_elem_of_In, Hv.
Qed.

Lemma in_capture_range_spec (v : Z) :
  in_capture_range v = true <-> 2 <= v <= 3.
Proof. unfold in_capture_range. rewrite andb_true_iff, !Z.leb_le. tauto. Qed.

Lemma capture_test (v : Z) : (4 >? v) && (v >? 1) = in_capture_range v.
Proof.
  unfold in_capture_range.
  destruct (Z.gtb_spec 4 v), (Z.gtb_spec v 1), (Z.leb_spec 2 v), (Z.leb_spec v 3);
    simpl; try reflexivity; lia.
Qed.

Lemma forbidden_spec (n : nat) (c : Z) (row : list Z) :
  (n <= 5)%nat -> 1 <= c <= 3 ->
  length row = 6%nat -> Forall (fun v => 0 <= v) row ->
  row ∈ row_forbidden n c
  <-> grand_slam n (zip_with Z.add row (row_received n c)) = true.
Proof.
  intros Hn Hc Hlen Hnn.
  do 6 (destruct row as [|? row]; [discriminate Hlen|]).
  destruct row; [|discriminate Hlen]. clear Hlen.
  repeat match goal with
         | H : Forall _ (_ :: _) |- _ => apply Forall_cons in H as [? H]
         end.
  unfold row_forbidden, grand_slam, row_received.
  assert (Hc' : c = 1 \/ c = 2 \/ c = 3) by lia.
  destruct Hc' as [-> | [-> | ->]]; simpl (_ =? _);
    cbv match; cbv beta.
  all: repeat (destruct n as [|n]; [|try lia]).
  all: try lia.
  all: simpl Nat.eqb; cbv match.
  all: rewrite ?elem_of_list_to_set, ?listed_spec, ?elem_of_singleton.
  all: unfold listed; simpl.
  all: rewrite ?andb_true_iff, ?bool_decide_eq_true, ?in_capture_range_spec,
         ?Z.eqb_eq, ?elem_of_cons, ?elem_of_nil.
  all: try (split; [intros HH; exfalso; revert HH; apply not_elem_of_empty
                   | intros HH; exfalso; lia]).
  all: split; intros HH; destruct_and?; simplify_eq;
         repeat split; try reflexivity; try lia; repeat f_equal; lia.
Qed.

(** *** Gathering on a sown board *)

Lemma harvester_values :
  Machinery.HARVESTER
  = [ [0]; [1; 0]; [2; 1; 0]; [3; 2; 1; 0]; [4; 3; 2; 1; 0];
      [5; 4; 3; 2; 1; 0]; [6]; [7; 6]; [8; 7; 6]; [9; 8; 7; 6];
      [10; 9; 8; 7; 6]; [11; 10; 9; 8; 7; 6] ]%nat.
Proof. vm_compute. reflexivity. Qed.

Lemma in_capture_range_false (v : Z) :
  in_capture_range v = false <-> v < 2 \/ 3 < v.
Proof.
  unfold in_capture_range. rewrite andb_false_iff, !Z.leb_gt. tauto.
Qed.

Ltac range_facts :=
  repeat match goal with
         | H : in_capture_range _ = true |- _ =>
             apply in_capture_range_spec in H
         | H : in_capture_range _ = false |- _ =>
             apply in_capture_range_false in H
         | H : Forall _ (_ :: _) |- _ => apply Forall_cons in H as [? H]
         end.

Ltac run_gather :=
  unfold Oware.gather, Oware._HARVESTER, Oware.row_eqb, Oware._EMPTY_ROWL,
    grand_slam, slice;
  rewrite harvester_values; simpl; rewrite ?capture_test;
  repeat match goal with
         | |- context [in_capture_range ?v] =>
             destruct (in_capture_range v) eqn:?; simpl; rewrite ?capture_test
         end;
  repeat case_bool_decide; simplify_eq;
  do 2 eexists; (split; [reflexivity|]); (split; [reflexivity|]);
  range_facts;
  repeat match goal with
         | |- context [?v =? 0] => destruct (Z.eqb_spec v 0); simpl
         end;
  (split;
   [ intros ?; split; first [reflexivity | exfalso; lia | exfalso; congruence]
   | intros [? ?]; first [discriminate | lia | exfalso; congruence] ]).

Lemma gather_south (m n : nat) (x0 x1 x2 x3 x4 x5 p0 p1 p2 p3 p4 p5 s12 s13 : Z) :
  (m < 6)%nat -> (n <= 5)%nat ->
  Forall (fun v => 1 <= v) (take (S n) [p0; p1; p2; p3; p4; p5]) ->
  Forall (fun v => 0 <= v) [p0; p1; p2; p3; p4; p5] ->
  exists b' s',
    Oware.gather m (6 + n) [x0; x1; x2; x3; x4; x5; p0; p1; p2; p3; p4; p5; s12; s13]
    = Ok b'
    /\ b' !! 12%nat = Some s'
    /\ (s12 < s' <->
        in_capture_range ([p0; p1; p2; p3; p4; p5] !!! n) = true
        /\ grand_slam n [p0; p1; p2; p3; p4; p5] = false).
Proof.
  intros Hm Hn Hpos Hnn.
  assert (Em : (m <? 6)%nat = true) by (apply Nat.ltb_lt; lia).
  repeat (destruct n as [|n]; [|try lia]); try lia; simpl in Hpos.
  all: unfold Oware.gather; rewrite Em; fold Oware.gather.
  - run_gather.
  - run_gather.
  - run_gather.
  - run_gather.
  - run_gather.
  - run_gather.
Qed.

Lemma gather_north (m n : nat) (x0 x1 x2 x3 x4 x5 p0 p1 p2 p3 p4 p5 s12 s13 : Z) :
  (6 <= m)%nat -> (n <= 5)%nat ->
  Forall (fun v => 1 <= v) (take (S n) [p0; p1; p2; p3; p4; p5]) ->
  Forall (fun v => 0 <= v) [p0; p1; p2; p3; p4; p5] ->
  exists b' s',
    Oware.gather m n [p0; p1; p2; p3; p4; p5; x0; x1; x2; x3; x4; x5; s12; s13]
    = Ok b'
    /\ b' !! 13%nat = Some s'
    /\ (s13 < s' <->
        in_capture_range ([p0; p1; p2; p3; p4; p5] !!! n) = true
        /\ grand_slam n [p0; p1; p2; p3; p4; p5] = false).
Proof.
  intros Hm Hn Hpos Hnn.
  assert (Em : (m <? 6)%nat = false) by (apply Nat.ltb_ge; lia).
  assert (Em' : (5 <? m)%nat = true) by (apply Nat.ltb_lt; lia).
  repeat (destruct n as [|n]; [|try lia]); try lia; simpl in Hpos.
  all: unfold Oware.gather; rewrite Em, Em'; fold Oware.gather.
  - run_gather.
  - run_gather.
  - run_gather.
  - run_gather.
  - run_gather.
  - run_gather.
Qed.

(** When the last seed lands on the mover's own row, or makes four or more,
    nothing is gathered. *)
Lemma gather_nothing (m l : nat) (nb : list Z) (v : Z) :
  (l < 12)%nat -> nb !! l = Some v ->
  faces m l = false \/ 4 <= v ->
  Oware.gather m l nb = Ok nb.
Proof.
  intros Hl Hv Hcase. unfold Oware.gather.
  rewrite (getitem_lookup _ _ _ Hv). simpl. rewrite capture_test.
  destruct (in_capture_range v) eqn:Hr; [|reflexivity].
  apply in_capture_range_spec in Hr.
  destruct Hcase as [Hf|]; [|lia].
  unfold faces in Hf. apply andb_false_iff in Hf.
  rewrite Nat.leb_gt, Nat.ltb_ge in Hf. unfold opp_base in Hf.
  destruct (Nat.ltb_spec m 6), (Nat.ltb_spec 5 l), (Nat.ltb_spec 5 m),
    (Nat.ltb_spec l 6); simpl; try reflexivity; lia.
Qed.

(** The disposition test of [is_capture] is the test on the sown house. *)
Lemma disposition_test (at_last seeds c : Z) :
  0 <= at_last -> 1 <= c <= 3 -> 11 * (c - 1) < seeds <= 11 * c ->
  (if at_last >? 2 then false
   else xorb (at_last =? 0) (seeds <? 12)
        || ((11 <? seeds) && (seeds <? 23) && (at_last =? 1)))
  = in_capture_range (at_last + c).
Proof.
  intros Hnn Hc Hs. unfold in_capture_range.
  destruct (Z.gtb_spec at_last 2), (Z.eqb_spec at_last 0),
    (Z.ltb_spec seeds 12), (Z.ltb_spec 11 seeds), (Z.ltb_spec seeds 23),
    (Z.eqb_spec at_last 1), (Z.leb_spec 2 (at_last + c)),
    (Z.leb_spec (at_last + c) 3); simpl; try reflexivity; lia.
Qed.

Lemma forbidden_test (n : nat) (c : Z) (row : list Z) :
  (n <= 5)%nat -> 1 <= c <= 3 ->
  length row = 6%nat -> Forall (fun v => 0 <= v) row ->
  bool_decide (row ∈ row_forbidden n c)
  = grand_slam n (zip_with Z.add row (row_received n c)).
Proof.
  intros Hn Hc Hlen Hnn.
  pose proof (forbidden_spec n c row Hn Hc Hlen Hnn) as H.
  destruct (grand_slam _ _).
  - apply bool_decide_eq_true, H. reflexivity.
  - apply bool_decide_eq_false. intros Hin. apply H in Hin. discriminate.
Qed.

(** *** The two functions agree *)

Lemma sown_board_south (m : nat) (b0 b1 b2 b3 b4 b5 b6 b7 b8 b9 b10 b11 b12 b13
  c0 c1 c2 c3 c4 c5 c6 c7 c8 c9 c10 c11 c12 c13 : Z) :
  (m < 6)%nat ->
  exists x0 x1 x2 x3 x4 x5,
    zip_with Z.add
      (<[m := 0]> [b0; b1; b2; b3; b4; b5; b6; b7; b8; b9; b10; b11; b12; b13])
      [c0; c1; c2; c3; c4; c5; c6; c7; c8; c9; c10; c11; c12; c13]
    = [x0; x1; x2; x3; x4; x5; b6 + c6; b7 + c7; b8 + c8; b9 + c9;
       b10 + c10; b11 + c11; b12 + c12; b13 + c13].
Proof. intros H. moves_below H; repeat eexists. Qed.

Lemma sown_board_north (m : nat) (b0 b1 b2 b3 b4 b5 b6 b7 b8 b9 b10 b11 b12 b13
  c0 c1 c2 c3 c4 c5 c6 c7 c8 c9 c10 c11 c12 c13 : Z) :
  (6 <= m < 12)%nat ->
  exists x0 x1 x2 x3 x4 x5,
    zip_with Z.add
      (<[m := 0]> [b0; b1; b2; b3; b4; b5; b6; b7; b8; b9; b10; b11; b12; b13])
      [c0; c1; c2; c3; c4; c5; c6; c7; c8; c9; c10; c11; c12; c13]
    = [b0 + c0; b1 + c1; b2 + c2; b3 + c3; b4 + c4; b5 + c5;
       x0; x1; x2; x3; x4; x5; b12 + c12; b13 + c13].
Proof.
  intros [H6 H]. do 6 (destruct m as [|m]; [lia|]).
  do 6 apply Nat.succ_lt_mono in H.
  moves_below H; repeat eexists.
Qed.

Lemma store_of_cases (m : nat) : store_of m = 12%nat \/ store_of m = 13%nat.
Proof. unfold store_of. destruct (m <? 6)%nat; auto. Qed.

Lemma capture_correct_wf (b : list Z) (m : nat) (s : Z) :
  wf_board b -> (m < 12)%nat -> b !! m = Some s -> 1 <= s <= 48 ->
  exists cv b' st st',
    Oware.is_capture b m = Ok cv
    /\ Oware.compute_board b m = Ok b'
    /\ b !! store_of m = Some st
    /\ b' !! store_of m = Some st'
    /\ (cv = true <-> st < st').
Proof.
  intros [Hlen Hnn] Hm Hs Hr.
  rewrite (compute_board_gather b m s Hlen Hm Hs Hr).
  destruct (table_facts_spec m (Z.to_nat s) Hm)
    as (_ & Hl & _ & _ & Hc & Hrow & Hst & Hlook); [lia|].
  rewrite Z2Nat.id in Hc, Hlook by lia.
  set (l := landing m (Z.to_nat s)) in *.
  set (cnt := received m (Z.to_nat s)) in *.
  assert (Hcl : length cnt = 14%nat)
    by (unfold cnt, received; rewrite length_sown; reflexivity).
  destruct (lookup_lt_is_Some_2 cnt l) as [c Hcv]; [lia|].
  rewrite (list_lookup_total_correct _ _ _ Hcv) in Hc, Hrow, Hlook.
  destruct (reaper_lookup m Hm) as [sdict Hd].
  rewrite Hd in Hlook. simpl in Hlook.
  unfold Oware.is_capture, Oware._REAPER.
  rewrite (getitem_lookup _ _ _ Hs), (getitem_lookup _ _ _ Hd). simpl.
  rewrite Hlook.
  assert (Hstore : exists st, b !! store_of m = Some st
            /\ zip_with Z.add (<[m := 0]> b) cnt !! store_of m = Some st).
  { destruct (lookup_lt_is_Some_2 b (store_of m)) as [st Hst'];
      [destruct (store_of_cases m) as [-> | ->]; lia|].
    exists st. split; [exact Hst'|].
    rewrite lookup_zip_with.
    rewrite list_lookup_insert_ne
      by (destruct (store_of_cases m) as [E | E]; rewrite E; lia).
    rewrite Hst'. simpl.
    assert (Hz : cnt !! store_of m = Some 0).
    { clear - Hst Hcl. board_entries cnt Hcl. unfold slice in Hst.
      simpl in Hst. simplify_eq.
      destruct (store_of_cases m) as [-> | ->]; reflexivity. }
    rewrite Hz. simpl. f_equal. lia. }
  destruct Hstore as (st & Hb & Hnb).
  assert (Hx : exists x, <[m := 0]> b !! l = Some x /\ 0 <= x).
  { destruct (lookup_lt_is_Some_2 (<[m := 0]> b) l) as [x Hx];
      [rewrite length_insert; lia|].
    exists x. split; [exact Hx|].
    eapply (Forall_lookup_1 (fun v => 0 <= v)); [|exact Hx].
    apply Forall_insert; [exact Hnn | lia]. }
  destruct Hx as (x & Hx & Hx0).
  assert (Hv : zip_with Z.add (<[m := 0]> b) cnt !! l = Some (x + c))
    by (rewrite lookup_zip_with, Hx, Hcv; reflexivity).
  destruct (faces m l && (c <=? 3)) eqn:Hcase.
  - (* the last seed lands on the facing row and makes at most three *)
    apply andb_true_iff in Hcase as [Hf Hc3]. apply Z.leb_le in Hc3.
    specialize (Hrow Hf). assert (Hc1 : 1 <= c) by lia.
    clear Hnb Hv Hx Hlook Hd.
    unfold faces in Hf. apply andb_true_iff in Hf as [Hf1 Hf2].
    apply Nat.leb_le in Hf1. apply Nat.ltb_lt in Hf2.
    board_entries cnt Hcl. board_entries b Hlen.
    repeat match goal with
           | H : Forall _ (_ :: _) |- _ => apply Forall_cons in H as [? H]
           end.
    unfold store_of, opp_base in *.
    destruct (Nat.ltb_spec m 6) as [Hm6|Hm6].
    + destruct (sown_board_south m b0 b1 b2 b3 b4 b5 b6 b7 b8 b9 b10 b11 b12 b13
                  cnt0 cnt1 cnt2 cnt3 cnt4 cnt5 cnt6 cnt7 cnt8 cnt9 cnt10 cnt11
                  cnt12 cnt13 Hm6) as (x0 & x1 & x2 & x3 & x4 & x5 & ->).
      do 6 (destruct l as [|l]; [lia|]).
      replace (S (S (S (S (S (S l)))))) with (6 + l)%nat in * by lia.
      replace (6 + l - 6)%nat with l in * by lia.
      assert (Hn : (l <= 5)%nat) by lia.
      pose proof (forbidden_test l c [b6; b7; b8; b9; b10; b11] Hn
                    ltac:(lia) eq_refl ltac:(repeat constructor; assumption)) as Ft.
      unfold slice in *. simpl in Hrow, Hb, Hst. simplify_eq.
      repeat (destruct l as [|l]; [|try lia]); try lia;
        simpl in Hcv; unfold row_received in Hrow; simpl in Hrow, Ft;
        simplify_eq;
        match goal with
        | |- context [Oware.gather m (6 + ?n) (?x0 :: ?x1 :: ?x2 :: ?x3 :: ?x4
                        :: ?x5 :: ?p0 :: ?p1 :: ?p2 :: ?p3 :: ?p4 :: ?p5
                        :: ?s12 :: ?s13 :: nil)] =>
            destruct (gather_south m n x0 x1 x2 x3 x4 x5 p0 p1 p2 p3 p4 p5
                        s12 s13 Hm6 ltac:(lia)
                        ltac:(simpl; repeat constructor; lia)
                        ltac:(repeat constructor; lia))
              as (b' & s' & -> & Hs' & Hiff)
        end;
        simpl in Hiff; simpl;
        match goal with
        | |- context [if ?a >? 2 then _ else _] =>
            pose proof (disposition_test a s c ltac:(lia) ltac:(lia) Hc) as Dt;
            destruct (a >? 2);
            [| destruct (xorb _ _ || _)]
        end;
        rewrite ?Ft; destruct (grand_slam _ _);
        do 4 eexists; (split; [reflexivity|]); (split; [reflexivity|]);
        (split; [reflexivity|]); (split; [exact Hs'|]);
        rewrite <- Dt in Hiff; rewrite Z.add_0_r in Hiff; rewrite Hiff;
        intuition congruence.
    + destruct (sown_board_north m b0 b1 b2 b3 b4 b5 b6 b7 b8 b9 b10 b11 b12 b13
                  cnt0 cnt1 cnt2 cnt3 cnt4 cnt5 cnt6 cnt7 cnt8 cnt9 cnt10 cnt11
                  cnt12 cnt13 ltac:(lia)) as (x0 & x1 & x2 & x3 & x4 & x5 & ->).
      replace (l - 0)%nat with l in * by lia.
      assert (Hn : (l <= 5)%nat) by lia.
      pose proof (forbidden_test l c [b0; b1; b2; b3; b4; b5] Hn
                    ltac:(lia) eq_refl ltac:(repeat constructor; assumption)) as Ft.
      unfold slice in *. simpl in Hrow, Hb, Hst. simplify_eq.
      repeat (destruct l as [|l]; [|try lia]); try lia;
        simpl in Hcv; unfold row_received in Hrow; simpl in Hrow, Ft;
        simplify_eq;
        match goal with
        | |- context [Oware.gather m ?n (?p0 :: ?p1 :: ?p2 :: ?p3 :: ?p4 :: ?p5
                        :: ?x0 :: ?x1 :: ?x2 :: ?x3 :: ?x4 :: ?x5
                        :: ?s12 :: ?s13 :: nil)] =>
            destruct (gather_north m n x0 x1 x2 x3 x4 x5 p0 p1 p2 p3 p4 p5
                        s12 s13 Hm6 ltac:(lia)
                        ltac:(simpl; repeat constructor; lia)
                        ltac:(repeat constructor; lia))
              as (b' & s' & -> & Hs' & Hiff)
        end;
        simpl in Hiff; simpl;
        match goal with
        | |- context [if ?a >? 2 then _ else _] =>
            pose proof (disposition_test a s c ltac:(lia) ltac:(lia) Hc) as Dt;
            destruct (a >? 2);
            [| destruct (xorb _ _ || _)]
        end;
        rewrite ?Ft; destruct (grand_slam _ _);
        do 4 eexists; (split; [reflexivity|]); (split; [reflexivity|]);
        (split; [reflexivity|]); (split; [exact Hs'|]);
        rewrite <- Dt in Hiff; rewrite Z.add_0_r in Hiff; rewrite Hiff;
        intuition congruence.
  - (* no capture *)
    rewrite (gather_nothing m l _ (x + c) Hl Hv).
    + exists false, (zip_with Z.add (<[m := 0]> b) cnt), st, st.
      repeat split; auto; try discriminate. lia.
    + apply andb_false_iff in Hcase as [Hf|Hc3]; [left; exact Hf|].
      right. apply Z.leb_gt in Hc3. lia.
Qed.

(** C1: on every position reachable from the initial board and for every
    legal move of the player to move, [is_capture] answers true exactly when
    [compute_board] strictly increases the mover's store (entry 12 for
    houses 0..5, entry 13 for houses 6..11). *)
Theorem capture_correctness (b : list Z) (t : Z) (ms : list nat) (m : nat) :
  reachable b t -> Oware.xlegal_moves b t = Ok ms -> m ∈ ms ->
  exists captures b' st st',
    Oware.is_capture b m = Ok captures
    /\ Oware.compute_board b m = Ok b'
    /\ b !! store_of m = Some st
    /\ b' !! store_of m = Some st'
    /\ (captures = true <-> st < st').
Proof.
  intros Hr Hms Hin.
  destruct (reachable_invariant _ _ Hr) as [Hwf Htot].
  destruct (legal_move_seeds _ _ _ _ Hms Hin) as (Hm & s & Hs & Hpos).
  pose proof (entry_le_total _ _ _ (proj2 Hwf) Hs).
  apply (capture_correct_wf b m s Hwf Hm Hs). lia.
Qed.

(** ** C8: board notation round trip *)

Local Open Scope string_scope.

Lemma append_cons (x : ascii) (a b : string) :
  String x a ++ b = String x (a ++ b).
Proof. reflexivity. Qed.

Lemma append_assoc (a b c : string) : (a ++ b) ++ c = a ++ (b ++ c).
Proof.
  induction a as [|x a IH]; [reflexivity|].
  rewrite !append_cons. f_equal. exact IH.
Qed.

Lemma length_append (a b : string) :
  String.length (a ++ b) = (String.length a + String.length b)%nat.
Proof.
  induction a as [|x a IH]; [reflexivity|].
  rewrite append_cons. simpl. f_equal. exact IH.
Qed.

Lemma substring_prefix (a b : string) :
  substring 0 (String.length a) (a ++ b) = a.
Proof.
  induction a as [|x a IH].
  - destruct b; reflexivity.
  - rewrite append_cons. simpl. f_equal. exact IH.
Qed.

Lemma join_snoc (l : list string) (x : string) :
  join "-" (l ++ [x]) = dashed l ++ x.
Proof.
  induction l as [|a l IH]; [reflexivity|].
  assert (E : join "-" ((a :: l) ++ [x]) = a ++ "-" ++ join "-" (l ++ [x])).
  { change ((a :: l) ++ [x])%list with (a :: (l ++ [x]))%list.
    destruct (l ++ [x])%list eqn:E; [destruct l; discriminate|reflexivity]. }
  rewrite E, IH. unfold dashed. simpl foldr. rewrite !append_assoc. reflexivity.
Qed.

Lemma option_eta {A : Type} (o : option A) :
  match o with Some m => Some m | None => None end = o.
Proof. destruct o; reflexivity. Qed.

Lemma small_number (z : Z) :
  0 <= z <= 49 -> exists n, z = Z.of_nat n /\ (n < 50)%nat.
Proof. intros H. exists (Z.to_nat z). lia. Qed.

Lemma item_facts (z : Z) :
  0 <= z <= 49 ->
  (forall rest g k, re.run item (str z ++ "-" ++ rest) g k = k rest g)
  /\ (forall rest, split "-" (str z ++ "-" ++ rest) = str z :: split "-" rest)
  /\ int (str z) = Ok z.
Proof.
  intros H. destruct (small_number z H) as (n & -> & Hn).
  do 50 (destruct n as [|n];
         [ split; [|split];
           [ intros rest g k;
             first [reflexivity | exact (option_eta (k rest g))]
           | intros rest; reflexivity
           | reflexivity ]
         | ]).
  lia.
Qed.

Lemma run_rep_S (n : nat) (r : re.regex) (s : string) (g : re.groups)
  (k : string -> re.groups -> option re.groups) :
  re.run (re.Rep (S n) r) s g k
  = re.run r s g (fun s' g' => re.run (re.Rep n r) s' g' k).
Proof. reflexivity. Qed.

Lemma run_items (l : list Z) (rest : string) (g : re.groups)
  (k : string -> re.groups -> option re.groups) :
  Forall (fun z => 0 <= z <= 49) l ->
  re.run (re.Rep (length l) item) (dashed (str <$> l) ++ rest) g k = k rest g.
Proof.
  induction 1 as [|z l Hz _ IH]; [reflexivity|].
  simpl length. rewrite run_rep_S.
  change (dashed (str <$> z :: l)) with (str z ++ "-" ++ dashed (str <$> l)).
  rewrite !append_assoc.
  destruct (item_facts z Hz) as (Hrun & _ & _). rewrite Hrun. exact IH.
Qed.

Lemma split_items (l : list Z) :
  Forall (fun z => 0 <= z <= 49) l ->
  split "-" (dashed (str <$> l)) = ((str <$> l) ++ [""])%list.
Proof.
  induction 1 as [|z l Hz _ IH]; [reflexivity|].
  change (dashed (str <$> z :: l)) with (str z ++ "-" ++ dashed (str <$> l)).
  destruct (item_facts z Hz) as (_ & Hsplit & _). rewrite Hsplit, IH. reflexivity.
Qed.

Lemma int_items (l : list Z) :
  Forall (fun z => 0 <= z <= 49) l -> Oware.int_each (str <$> l) = Ok l.
Proof.
  induction 1 as [|z l Hz _ IH]; [reflexivity|].
  destruct (item_facts z Hz) as (_ & _ & Hint).
  change (Oware.int_each (str <$> z :: l))
    with (bind (int (str z)) (fun n =>
            bind (Oware.int_each (str <$> l)) (fun rest => Ok (n :: rest)))).
  rewrite Hint, IH. reflexivity.
Qed.

Lemma pop_snoc {A : Type} (l : list A) (x : A) : pop (l ++ [x]) = Ok l.
Proof.
  unfold pop. rewrite removelast_last.
  destruct (l ++ [x])%list eqn:E; [destruct l; discriminate|reflexivity].
Qed.

(** C8: for a board of 14 entries between 0 and 49 and a turn SOUTH or
    NORTH, [to_position (to_board_notation b t)] is [(b, t)]. *)
Theorem notation_round_trip (b : list Z) (t : Z) :
  length b = 14%nat -> Forall (fun z => 0 <= z <= 49) b ->
  t = Oware.SOUTH \/ t = Oware.NORTH ->
  Oware.to_position (Oware.to_board_notation b t) = Ok (b, t).
Proof.
  intros Hlen Hall Ht.
  unfold Oware.to_board_notation. rewrite join_snoc.
  set (side := if (t =? Oware.SOUTH)%Z then "S" else "N").
  set (text := dashed (str <$> b)).
  assert (Hm : re.match_ Oware.position_pattern (text ++ side)
               = Some (<[2%nat := side]> (<[1%nat := text]> ∅))).
  { unfold re.match_, Oware.position_pattern.
    change (re.Seq (re.Opt (re.Cls "1" "4"))
              (re.Seq (re.Cls "0" "9") (re.Chr "-"))) with item.
    change (re.run (re.Seq ?r1 ?r2) ?s ?g ?k)
      with (re.run r1 s g (fun s' g' => re.run r2 s' g' k)).
    change (re.run (re.Group 1 ?r) ?s ?g ?k)
      with (re.run r s g (fun s' g' => k s' (<[1%nat := re.consumed s s']> g'))).
    rewrite <- Hlen. unfold text.
    rewrite run_items by exact Hall.
    unfold re.consumed. rewrite length_append.
    replace (String.length (dashed (str <$> b)) + String.length side
             - String.length side)%nat
      with (String.length (dashed (str <$> b))) by lia.
    rewrite substring_prefix.
    unfold side. destruct Ht as [-> | ->]; reflexivity. }
  unfold Oware.to_position. rewrite Hm. cbv beta iota.
  unfold re.group, re.groups. rewrite lookup_insert_eq. unfold bind at 1.
  rewrite lookup_insert_ne by lia. rewrite lookup_insert_eq. unfold bind at 1.
  unfold text. rewrite split_items by exact Hall.
  rewrite pop_snoc. simpl. rewrite int_items by exact Hall. simpl.
  unfold side. destruct Ht as [-> | ->]; reflexivity.
Qed.

Lemma notation_round_trip_witness :
  Oware.to_position (Oware.to_board_notation clamp_board Oware.NORTH)
  = Ok (clamp_board, Oware.NORTH).
Proof.
  apply (notation_round_trip clamp_board Oware.NORTH).
  - reflexivity.
  - unfold clamp_board. repeat constructor; lia.
  - right. reflexivity.
Defined.

Local Close Scope string_scope.

(** ** The opening move, as an instance of C1 and C4 *)

Lemma capture_correctness_witness :
  exists captures b' st st',
    Oware.is_capture Oware.get_initial_board 2 = Ok captures
    /\ Oware.compute_board Oware.get_initial_board 2 = Ok b'
    /\ Oware.get_initial_board !! store_of 2 = Some st
    /\ b' !! store_of 2 = Some st'
    /\ (captures = true <-> st < st').
Proof.
  apply (capture_correctness Oware.get_initial_board Oware.SOUTH
           [0; 1; 2; 3; 4; 5]%nat 2).
  - apply reachable_initial. left. reflexivity.
  - vm_compute. reflexivity.
  - apply list_elem_of_In. simpl. auto.
Defined.

Lemma seed_conservation_witness :
  exists b', Oware.compute_board Oware.get_initial_board 2 = Ok b'
    /\ length b' = 14%nat
    /\ sum b' 0 = sum Oware.get_initial_board 0
    /\ sum Oware.get_initial_board 0 = 48.
Proof.
  apply (seed_conservation Oware.get_initial_board Oware.SOUTH
           [0; 1; 2; 3; 4; 5]%nat 2).
  - apply reachable_initial. left. reflexivity.
  - vm_compute. reflexivity.
  - apply list_elem_of_In. simpl. auto.
Defined.

(** * Further properties of the rules *)

(** ** What a move does to the board *)

Lemma drill_skips_source (m : nat) :
  (m < 12)%nat ->
  exists d, Machinery.SEED_DRILL !! m = Some d /\ m ∉ d.
Proof.
  intros H. moves_below H; eexists; (split; [reflexivity|]);
    apply (bool_decide_unpack _); vm_compute; exact I.
Qed.

Lemma compute_board_as_gather (b : list Z) (m : nat) (s : Z) :
  length b = 14%nat -> (m < 12)%nat -> b !! m = Some s -> 1 <= s ->
  exists l nb,
    Oware.compute_board b m = Oware.gather m l nb
    /\ (l < 12)%nat /\ length nb = 14%nat
    /\ nb !! m = Some 0
    /\ nb !! 12%nat = b !! 12%nat /\ nb !! 13%nat = b !! 13%nat.
Proof.
  intros Hlen Hm Hs Hpos.
  destruct (seed_drill_lookup m Hm) as (d & Hd & Hd48 & Hall).
  destruct (drill_skips_source m Hm) as (d' & Hd' & Hskip).
  rewrite Hd in Hd'. injection Hd' as <-.
  set (houses := take (Z.to_nat s) d).
  assert (Hh : Forall (fun h => (h < 12)%nat) houses) by (apply Forall_take, Hall).
  assert (Hne : houses <> []).
  { intros E. apply (f_equal length) in E. unfold houses in E.
    rewrite length_take, Hd48 in E. simpl in E. lia. }
  apply last_is_Some in Hne as [l Hl].
  exists l, (sown houses (<[m := 0]> b)).
  assert (Hout : forall i, (12 <= i)%nat -> i ∉ houses).
  { intros i Hi Hin. rewrite Forall_forall in Hh. apply Hh in Hin. lia. }
  split; [|split; [|split; [|split; [|split]]]].
  - unfold Oware.compute_board, Oware._SEED_DRILL.
    rewrite setitem_lt by lia. simpl.
    rewrite (getitem_lookup _ _ _ Hd). simpl.
    rewrite (getitem_lookup _ _ _ Hs). simpl.
    rewrite slice_to_pos by lia. fold houses.
    rewrite sow_sown
      by (rewrite length_insert, Hlen; eapply Forall_impl; [exact Hh|];
          simpl; intros; lia).
    simpl. rewrite Hl. reflexivity.
  - rewrite Forall_forall in Hh. apply Hh, last_Some_elem_of, Hl.
  - rewrite length_sown, length_insert. exact Hlen.
  - rewrite sown_lookup_other.
    + apply list_lookup_insert_eq. lia.
    + intros Hin. apply Hskip. unfold houses in Hin.
      apply elem_of_take in Hin as (i & Hi & _).
      eapply list_elem_of_lookup_2, Hi.
  - rewrite sown_lookup_other by (apply Hout; lia).
    apply list_lookup_insert_ne. lia.
  - rewrite sown_lookup_other by (apply Hout; lia).
    apply list_lookup_insert_ne. lia.
Qed.

Ltac run_gather_effect :=
  unfold Oware.gather, Oware._HARVESTER, Oware.row_eqb, Oware._EMPTY_ROWL, slice;
  rewrite harvester_values; simpl; rewrite ?capture_test;
  repeat match goal with
         | |- context [in_capture_range ?v] =>
             destruct (in_capture_range v) eqn:?; simpl; rewrite ?capture_test
         end;
  repeat case_bool_decide;
  do 2 eexists; (split; [reflexivity|]); (split; [reflexivity|]);
  (split; [reflexivity|]); (split; [reflexivity|]);
  range_facts;
  first [ left; split; reflexivity
        | right; split; [lia | assumption] ].

Lemma gather_effect_south (m n : nat)
  (x0 x1 x2 x3 x4 x5 p0 p1 p2 p3 p4 p5 s12 s13 : Z) :
  (m < 6)%nat -> (n <= 5)%nat ->
  let nb := [x0; x1; x2; x3; x4; x5; p0; p1; p2; p3; p4; p5; s12; s13] in
  exists b' s',
    Oware.gather m (6 + n) nb = Ok b'
    /\ take 6 b' = [x0; x1; x2; x3; x4; x5]
    /\ b' !! 12%nat = Some s'
    /\ b' !! 13%nat = Some s13
    /\ (s' = s12 /\ b' = nb
        \/ s12 + 2 <= s' <= s12 + 15 /\ slice b' 6 12 <> [0; 0; 0; 0; 0; 0]).
Proof.
  intros Hm Hn nb. unfold nb.
  assert (Em : (m <? 6)%nat = true) by (apply Nat.ltb_lt; lia).
  repeat (destruct n as [|n]; [|try lia]); try lia.
  all: unfold Oware.gather; rewrite Em; fold Oware.gather.
  all: run_gather_effect.
Qed.

Lemma gather_effect_north (m n : nat)
  (x0 x1 x2 x3 x4 x5 p0 p1 p2 p3 p4 p5 s12 s13 : Z) :
  (6 <= m)%nat -> (n <= 5)%nat ->
  let nb := [p0; p1; p2; p3; p4; p5; x0; x1; x2; x3; x4; x5; s12; s13] in
  exists b' s',
    Oware.gather m n nb = Ok b'
    /\ drop 6 (take 12 b') = [x0; x1; x2; x3; x4; x5]
    /\ b' !! 13%nat = Some s'
    /\ b' !! 12%nat = Some s12
    /\ (s' = s13 /\ b' = nb
        \/ s13 + 2 <= s' <= s13 + 15 /\ slice b' 0 6 <> [0; 0; 0; 0; 0; 0]).
Proof.
  intros Hm Hn nb. unfold nb.
  assert (Em : (m <? 6)%nat = false) by (apply Nat.ltb_ge; lia).
  assert (Em' : (5 <? m)%nat = true) by (apply Nat.ltb_lt; lia).
  repeat (destruct n as [|n]; [|try lia]); try lia.
  all: unfold Oware.gather; rewrite Em, Em'; fold Oware.gather.
  all: run_gather_effect.
Qed.

Lemma compute_board_effect (b : list Z) (m : nat) (s : Z) :
  length b = 14%nat -> (m < 12)%nat -> b !! m = Some s -> 1 <= s ->
  exists b' st st',
    Oware.compute_board b m = Ok b'
    /\ b' !! m = Some 0
    /\ b !! store_of m = Some st
    /\ b' !! store_of m = Some st'
    /\ b' !! (25 - store_of m)%nat = b !! (25 - store_of m)%nat
    /\ (st' = st
        \/ st + 2 <= st' <= st + 15
           /\ slice b' (opp_base m) (opp_base m + 6) <> [0; 0; 0; 0; 0; 0]).
Proof.
  intros Hlen Hm Hs Hpos.
  destruct (compute_board_as_gather b m s Hlen Hm Hs Hpos)
    as (l & nb & -> & Hl & Hnl & Hnm & H12 & H13).
  board_entries nb Hnl. board_entries b Hlen.
  simpl in H12, H13. simplify_eq.
  unfold store_of, opp_base.
  destruct (Nat.ltb_spec m 6) as [Hm6|Hm6]; simpl.
  - destruct (Nat.ltb_spec l 6) as [Hl6|Hl6].
    + destruct (lookup_lt_is_Some_2
                  [nb0; nb1; nb2; nb3; nb4; nb5; nb6; nb7; nb8; nb9; nb10; nb11;
                   b12; b13] l) as [v Hv]; [simpl; lia|].
      rewrite (gather_nothing m l _ v Hl Hv).
      * do 3 eexists. split; [reflexivity|]. split; [exact Hnm|].
        split; [reflexivity|]. split; [reflexivity|]. split; [reflexivity|].
        left. reflexivity.
      * left. unfold faces, opp_base.
        replace (m <? 6)%nat with true by (symmetry; apply Nat.ltb_lt; lia).
        apply andb_false_iff. left. apply Nat.leb_gt. lia.
    + replace l with (6 + (l - 6))%nat by lia.
      destruct (gather_effect_south m (l - 6) nb0 nb1 nb2 nb3 nb4 nb5 nb6 nb7
                  nb8 nb9 nb10 nb11 b12 b13 Hm6 ltac:(lia))
        as (b' & s' & -> & Htake & Hs' & Hs13 & Hcase).
      exists b', b12, s'. split; [reflexivity|]. split.
      * rewrite <- (lookup_take_lt b' 6 m) by lia. rewrite Htake.
        clear - Hnm Hm6. moves_below Hm6; exact Hnm.
      * split; [reflexivity|]. split; [exact Hs'|]. split; [exact Hs13|].
        destruct Hcase as [[-> _] | [? ?]]; [left; reflexivity | right; auto].
  - destruct (Nat.ltb_spec l 6) as [Hl6|Hl6].
    + destruct (gather_effect_north m l nb6 nb7 nb8 nb9 nb10 nb11 nb0 nb1 nb2
                  nb3 nb4 nb5 b12 b13 Hm6 ltac:(lia))
        as (b' & s' & -> & Hdrop & Hs' & Hs12 & Hcase).
      exists b', b13, s'. split; [reflexivity|]. split.
      * assert (E : b' !! m = drop 6 (take 12 b') !! (m - 6)%nat).
        { rewrite lookup_drop, lookup_take_lt by lia. f_equal. lia. }
        rewrite E, Hdrop. clear - Hnm Hm6 Hm.
        do 6 (destruct m as [|m]; [lia|]). do 6 apply Nat.succ_lt_mono in Hm.
        moves_below Hm; exact Hnm.
      * split; [reflexivity|]. split; [exact Hs'|]. split; [exact Hs12|].
        destruct Hcase as [[-> _] | [? ?]]; [left; reflexivity | right; auto].
    + destruct (lookup_lt_is_Some_2
                  [nb0; nb1; nb2; nb3; nb4; nb5; nb6; nb7; nb8; nb9; nb10; nb11;
                   b12; b13] l) as [v Hv]; [simpl; lia|].
      rewrite (gather_nothing m l _ v Hl Hv).
      * do 3 eexists. split; [reflexivity|]. split; [exact Hnm|].
        split; [reflexivity|]. split; [reflexivity|]. split; [reflexivity|].
        left. reflexivity.
      * left. unfold faces, opp_base.
        replace (m <? 6)%nat with false by (symmetry; apply Nat.ltb_ge; lia).
        apply andb_false_iff. right. apply Nat.ltb_ge. lia.
Qed.

(** X1: the house a move is played from is empty afterwards, however many
    seeds it held: the sowing skips it on every lap and the gathering never
    reaches the mover's row. *)
Theorem move_empties_source (b : list Z) (m : nat) (s : Z) :
  length b = 14%nat -> (m < 12)%nat -> b !! m = Some s -> 1 <= s ->
  exists b', Oware.compute_board b m = Ok b' /\ b' !! m = Some 0.
Proof.
  intros Hlen Hm Hs Hpos.
  destruct (compute_board_effect b m s Hlen Hm Hs Hpos) as (b' & _ & _ & E & Hz & _).
  exists b'. auto.
Qed.

Lemma move_empties_source_witness :
  exists b', Oware.compute_board clamp_board 0 = Ok b' /\ b' !! 0%nat = Some 0.
Proof.
  apply (move_empties_source clamp_board 0 17); [reflexivity | lia | reflexivity | lia].
Defined.

(** X2: a move leaves the opponent's store as it was and never lowers the
    mover's store. *)
Theorem move_stores (b : list Z) (m : nat) (s : Z) :
  length b = 14%nat -> (m < 12)%nat -> b !! m = Some s -> 1 <= s ->
  exists b' st st',
    Oware.compute_board b m = Ok b'
    /\ b !! store_of m = Some st /\ b' !! store_of m = Some st' /\ st <= st'
    /\ b' !! (25 - store_of m)%nat = b !! (25 - store_of m)%nat.
Proof.
  intros Hlen Hm Hs Hpos.
  destruct (compute_board_effect b m s Hlen Hm Hs Hpos)
    as (b' & st & st' & E & _ & Hst & Hst' & Hother & Hcase).
  exists b', st, st'. repeat split; auto. destruct Hcase as [->|[? _]]; lia.
Qed.

Lemma move_stores_witness :
  exists b' st st',
    Oware.compute_board clamp_board 0 = Ok b'
    /\ clamp_board !! store_of 0 = Some st /\ b' !! store_of 0 = Some st'
    /\ st <= st'
    /\ b' !! (25 - store_of 0)%nat = clamp_board !! (25 - store_of 0)%nat.
Proof.
  apply (move_stores clamp_board 0 17); [reflexivity | lia | reflexivity | lia].
Defined.

(** X3: whenever a move changes the mover's store, it adds between 2 and 15
    seeds and the opponent's row is not left empty. *)
Theorem capture_is_partial (b : list Z) (m : nat) (s : Z) (b' : list Z) (st st' : Z) :
  length b = 14%nat -> (m < 12)%nat -> b !! m = Some s -> 1 <= s ->
  Oware.compute_board b m = Ok b' ->
  b !! store_of m = Some st -> b' !! store_of m = Some st' -> st' <> st ->
  st + 2 <= st' <= st + 15
  /\ slice b' (opp_base m) (opp_base m + 6) <> [0; 0; 0; 0; 0; 0].
Proof.
  intros Hlen Hm Hs Hpos Hcb Hst Hst' Hne.
  destruct (compute_board_effect b m s Hlen Hm Hs Hpos)
    as (b2 & st2 & st2' & E & _ & Hst2 & Hst2' & _ & Hcase).
  rewrite Hcb in E. injection E as <-.
  rewrite Hst in Hst2. rewrite Hst' in Hst2'. simplify_eq.
  destruct Hcase as [->|?]; [congruence | assumption].
Qed.

Lemma capture_is_partial_witness :
  0 + 2 <= 3 <= 0 + 15
  /\ slice [0;4;4;4;4;4; 0;5;5;5;5;5; 3;0] (opp_base 0) (opp_base 0 + 6)
     <> [0; 0; 0; 0; 0; 0].
Proof.
  apply (capture_is_partial clamp_board 0 17 [0;4;4;4;4;4; 0;5;5;5;5;5; 3;0] 0 3);
    try reflexivity; try lia; discriminate.
Defined.

(** X4: a move sows at most 48 seeds, the length of the sowing table: the
    number of seeds on the board and in the stores is kept when the house
    holds at most 48 seeds, and drops by the excess when it holds more. *)
Theorem move_total (b : list Z) (m : nat) (s : Z) :
  length b = 14%nat -> (m < 12)%nat -> b !! m = Some s -> 1 <= s ->
  exists b', Oware.compute_board b m = Ok b'
    /\ (s <= 48 -> sum b' 0 = sum b 0)
    /\ (48 < s -> sum b' 0 = sum b 0 - (s - 48)).
Proof.
  intros Hlen Hm Hs Hpos.
  destruct (compute_board_total b m s Hlen Hm Hs Hpos) as (b' & E & _ & T & _).
  exists b'. rewrite !sum_total. split; [exact E|]. split; intros; rewrite T; lia.
Qed.

Lemma move_total_witness :
  exists b', Oware.compute_board [50;0;0;0;0;0; 0;0;0;0;0;0; 0;0] 0 = Ok b'
    /\ (50 <= 48 -> sum b' 0 = sum [50;0;0;0;0;0; 0;0;0;0;0;0; 0;0] 0)
    /\ (48 < 50 -> sum b' 0 = sum [50;0;0;0;0;0; 0;0;0;0;0;0; 0;0] 0 - (50 - 48)).
Proof.
  apply (move_total [50;0;0;0;0;0; 0;0;0;0;0;0; 0;0] 0 50);
    [reflexivity | lia | reflexivity | lia].
Defined.

(** ** The move generators *)

Lemma reaper_entries (m : nat) (sdict : gmap Z (nat * gset (list Z))) :
  (m < 12)%nat -> Machinery.REAPER !! m = Some sdict ->
  map_Forall (fun s e => (e.1 < 12)%nat /\ Oware.reaches (reach m) m s = true)
    sdict.
Proof.
  intros H E.
  repeat (destruct m as [|m];
          [injection E as <-; apply (bool_decide_unpack _); vm_compute; exact I|]).
  lia.
Qed.

Lemma is_capture_total (b : list Z) (m : nat) :
  length b = 14%nat -> (m < 12)%nat ->
  Oware.is_capture b m = Ok (captures b m).
Proof.
  intros Hlen Hm. unfold captures.
  destruct (lookup_lt_is_Some_2 b m) as [s Hs]; [lia|].
  destruct (reaper_lookup m Hm) as [sdict Hd].
  unfold Oware.is_capture, Oware._REAPER.
  rewrite (getitem_lookup _ _ _ Hs), (getitem_lookup _ _ _ Hd). simpl.
  destruct (sdict !! s) as [[last forbidden]|] eqn:He; [|reflexivity].
  destruct (reaper_entries m sdict Hm Hd s _ He) as [Hl _]. simpl in Hl.
  destruct (lookup_lt_is_Some_2 b last) as [v Hv]; [lia|].
  rewrite (getitem_lookup _ _ _ Hv). simpl.
  destruct (v >? 2); [reflexivity|].
  destruct (xorb _ _ || _); [|reflexivity].
  destruct (m <? 6)%nat; destruct (bool_decide _); reflexivity.
Qed.

Lemma capture_reaches (b : list Z) (m : nat) (s : Z) :
  (m < 12)%nat -> b !! m = Some s -> captures b m = true ->
  Oware.reaches (reach m) m s = true.
Proof.
  intros Hm Hs Hc. unfold captures in Hc.
  destruct (reaper_lookup m Hm) as [sdict Hd].
  unfold Oware.is_capture, Oware._REAPER in Hc.
  rewrite (getitem_lookup _ _ _ Hs), (getitem_lookup _ _ _ Hd) in Hc.
  simpl in Hc.
  destruct (sdict !! s) as [e|] eqn:He; [|discriminate].
  apply (reaper_entries m sdict Hm Hd s e He).
Qed.

Lemma scan_filter (guard : nat -> Z -> bool) (c : bool) (b : list Z)
  (moves : list nat) :
  length b = 14%nat -> Forall (fun h => (h < 12)%nat) moves ->
  Oware.scan guard c b moves = Ok (List.filter (scanned guard c b) moves).
Proof.
  intros Hlen. induction 1 as [|m moves Hm _ IH]; [reflexivity|].
  destruct (lookup_lt_is_Some_2 b m) as [s Hs]; [lia|].
  simpl. rewrite (getitem_lookup _ _ _ Hs). simpl.
  rewrite IH. unfold scanned at 2.
  rewrite (list_lookup_total_correct _ _ _ Hs).
  destruct (guard m s); simpl.
  - rewrite (is_capture_total b m Hlen Hm). simpl.
    destruct (eqb _ _); reflexivity.
  - reflexivity.
Qed.

Lemma xlegal_moves_list (b : list Z) (t : Z) :
  length b = 14%nat -> Oware.xlegal_moves b t = Ok (legal_list b t).
Proof.
  intros Hlen. unfold Oware.xlegal_moves, legal_list.
  destruct (t =? Oware.SOUTH);
    rewrite !scan_filter by (try exact Hlen; repeat constructor; lia);
    simpl; destruct (negb _); reflexivity.
Qed.

Lemma in_row_down (m : nat) : In m [5; 4; 3; 2; 1; 0]%nat <-> (m < 6)%nat.
Proof. simpl. lia. Qed.

Lemma in_row_up (m : nat) : In m [0; 1; 2; 3; 4; 5]%nat <-> (m < 6)%nat.
Proof. simpl. lia. Qed.

Lemma in_far_row_down (m : nat) :
  In m [11; 10; 9; 8; 7; 6]%nat <-> (6 <= m < 12)%nat.
Proof. simpl. lia. Qed.

Lemma in_far_row_up (m : nat) :
  In m [6; 7; 8; 9; 10; 11]%nat <-> (6 <= m < 12)%nat.
Proof. simpl. lia. Qed.

Lemma in_mover_row (t : Z) (m : nat) :
  m ∈ mover_row t
  <-> if t =? Oware.SOUTH then (m < 6)%nat else (6 <= m < 12)%nat.
Proof.
  unfold mover_row. rewrite list_elem_of_In.
  destruct (t =? Oware.SOUTH); [apply in_row_up | apply in_far_row_up].
Qed.

Lemma reaches_spec (bound : Z) (m : nat) (s : Z) :
  Oware.reaches bound m s = true <-> 1 <= s /\ s > bound - Z.of_nat m.
Proof.
  unfold Oware.reaches. rewrite andb_true_iff, Z.ltb_lt, Z.gtb_lt. lia.
Qed.

Lemma in_legal_list (b : list Z) (t : Z) (m : nat) :
  length b = 14%nat -> m ∈ legal_list b t <-> playable b t m.
Proof.
  intros Hlen. unfold playable. rewrite in_mover_row.
  unfold legal_list, Oware.row_eqb, Oware._EMPTY_ROW.
  destruct (t =? Oware.SOUTH).
  - destruct (decide (m < 6)%nat) as [Hm|Hm].
    2:{ split; [|tauto]. intros Hin. exfalso.
        repeat (apply elem_of_app in Hin as [Hin|Hin]);
          try (destruct (negb _));
          repeat (apply elem_of_app in Hin as [Hin|Hin]);
          apply list_elem_of_In, filter_In in Hin as [Hin _];
          apply in_row_down in Hin || apply in_row_up in Hin; lia. }
    destruct (lookup_lt_is_Some_2 b m) as [s Hs]; [lia|].
    assert (Ob : opp_base m = 6%nat)
      by (unfold opp_base; destruct (Nat.ltb_spec m 6); [reflexivity|lia]).
    assert (Rm : reach m = 5)
      by (unfold reach; destruct (Nat.ltb_spec m 6); [reflexivity|lia]).
    rewrite Ob, Rm. change (6 + 6)%nat with 12%nat.
    pose proof (capture_reaches b m s ltac:(lia) Hs) as Hcr. rewrite Rm in Hcr.
    rewrite reaches_spec in Hcr.
    assert (Hp : (exists s0, b !! m = Some s0 /\ 1 <= s0
                    /\ (slice b 6 12 = [0; 0; 0; 0; 0; 0] ->
                        s0 > 5 - Z.of_nat m))
                 <-> 1 <= s /\ (slice b 6 12 = [0; 0; 0; 0; 0; 0] ->
                                s > 5 - Z.of_nat m)).
    { split; [intros (s0 & E & H); rewrite Hs in E; injection E as <-; exact H
              | intros H; exists s; split; [exact Hs | exact H]]. }
    rewrite Hp. clear Hp.
    pose proof (Z.lt_ge_cases s 3) as H3.
    rewrite elem_of_app, list_elem_of_In, filter_In, in_row_down.
    unfold scanned. rewrite (list_lookup_total_correct _ _ _ Hs).
    case_bool_decide as Hrow; cbn [negb].
    + rewrite list_elem_of_In, filter_In, in_row_up. unfold scanned.
      rewrite (list_lookup_total_correct _ _ _ Hs).
      rewrite !andb_true_iff, !reaches_spec.
      destruct (captures b m); simpl; intuition (try discriminate; try lia).
    + rewrite elem_of_app, !list_elem_of_In, !filter_In, !in_row_up.
      unfold scanned. rewrite (list_lookup_total_correct _ _ _ Hs).
      rewrite !andb_true_iff, !reaches_spec, !Z.ltb_lt, Z.gtb_lt.
      destruct (captures b m); simpl; intuition (try discriminate; try lia).
  - destruct (decide (6 <= m < 12)%nat) as [Hm|Hm].
    2:{ split; [|tauto]. intros Hin. exfalso.
        repeat (apply elem_of_app in Hin as [Hin|Hin]);
          try (destruct (negb _));
          repeat (apply elem_of_app in Hin as [Hin|Hin]);
          apply list_elem_of_In, filter_In in Hin as [Hin _];
          apply in_far_row_down in Hin || apply in_far_row_up in Hin; lia. }
    destruct (lookup_lt_is_Some_2 b m) as [s Hs]; [lia|].
    assert (Ob : opp_base m = 0%nat)
      by (unfold opp_base; destruct (Nat.ltb_spec m 6); [lia|reflexivity]).
    assert (Rm : reach m = 11)
      by (unfold reach; destruct (Nat.ltb_spec m 6); [lia|reflexivity]).
    rewrite Ob, Rm. change (0 + 6)%nat with 6%nat.
    pose proof (capture_reaches b m s ltac:(lia) Hs) as Hcr. rewrite Rm in Hcr.
    rewrite reaches_spec in Hcr.
    assert (Hp : (exists s0, b !! m = Some s0 /\ 1 <= s0
                    /\ (slice b 0 6 = [0; 0; 0; 0; 0; 0] ->
                        s0 > 11 - Z.of_nat m))
                 <-> 1 <= s /\ (slice b 0 6 = [0; 0; 0; 0; 0; 0] ->
                                s > 11 - Z.of_nat m)).
    { split; [intros (s0 & E & H); rewrite Hs in E; injection E as <-; exact H
              | intros H; exists s; split; [exact Hs | exact H]]. }
    rewrite Hp. clear Hp.
    pose proof (Z.lt_ge_cases s 3) as H3.
    rewrite elem_of_app, list_elem_of_In, filter_In, in_far_row_down.
    unfold scanned. rewrite (list_lookup_total_correct _ _ _ Hs).
    case_bool_decide as Hrow; cbn [negb].
    + rewrite list_elem_of_In, filter_In, in_far_row_up. unfold scanned.
      rewrite (list_lookup_total_correct _ _ _ Hs).
      rewrite !andb_true_iff, !reaches_spec.
      destruct (captures b m); simpl; intuition (try discriminate; try lia).
    + rewrite elem_of_app, !list_elem_of_In, !filter_In, !in_far_row_up.
      unfold scanned. rewrite (list_lookup_total_correct _ _ _ Hs).
      rewrite !andb_true_iff, !reaches_spec, !Z.ltb_lt, Z.gtb_lt.
      destruct (captures b m); simpl; intuition (try discriminate; try lia).
Qed.

(** X5: on a board of 14 entries [xlegal_moves] does not raise, and it
    yields exactly the playable houses: those of the mover's row that hold
    at least one seed and, when the opponent's row is empty, hold enough
    seeds to reach it. *)
Theorem legal_moves_exact (b : list Z) (t : Z) :
  length b = 14%nat ->
  exists ms, Oware.xlegal_moves b t = Ok ms
    /\ forall m, m ∈ ms <-> playable b t m.
Proof.
  intros Hlen. exists (legal_list b t).
  split; [apply xlegal_moves_list, Hlen|].
  intros m. apply in_legal_list, Hlen.
Qed.

Lemma legal_moves_exact_witness :
  exists ms, Oware.xlegal_moves scenario_board Oware.SOUTH = Ok ms
    /\ forall m, m ∈ ms <-> playable scenario_board Oware.SOUTH m.
Proof. apply (legal_moves_exact scenario_board Oware.SOUTH). reflexivity. Defined.

Lemma scan_sublist (guard : nat -> Z -> bool) (c : bool) (b : list Z)
  (moves ms : list nat) :
  Oware.scan guard c b moves = Ok ms -> ms `sublist_of` moves.
Proof.
  revert ms. induction moves as [|x moves IH]; intros ms H; simpl in H.
  - injection H as <-. constructor.
  - apply bind_Ok in H as (s & _ & H).
    apply bind_Ok in H as (y & _ & H).
    apply bind_Ok in H as (rest & Hrest & H). injection H as <-.
    specialize (IH rest Hrest).
    destruct y; [apply sublist_skip | apply sublist_cons]; exact IH.
Qed.

(** X6: [xlegal_moves] never yields a move twice. *)
Theorem legal_moves_distinct (b : list Z) (t : Z) (ms : list nat) :
  Oware.xlegal_moves b t = Ok ms -> NoDup ms.
Proof.
  intros H. unfold Oware.xlegal_moves in H.
  assert (Hnd : forall guard c moves ms', NoDup moves ->
            Oware.scan guard c b moves = Ok ms' -> NoDup ms').
  { intros guard c moves ms' Hm Hs.
    exact (sublist_NoDup _ _ Hm (scan_sublist _ _ _ _ _ Hs)). }
  assert (N1 : NoDup [5; 4; 3; 2; 1; 0]%nat)
    by (apply (bool_decide_unpack _); vm_compute; exact I).
  assert (N2 : NoDup [0; 1; 2; 3; 4; 5]%nat)
    by (apply (bool_decide_unpack _); vm_compute; exact I).
  assert (N3 : NoDup [11; 10; 9; 8; 7; 6]%nat)
    by (apply (bool_decide_unpack _); vm_compute; exact I).
  assert (N4 : NoDup [6; 7; 8; 9; 10; 11]%nat)
    by (apply (bool_decide_unpack _); vm_compute; exact I).
  assert (Hcap : forall g1 g2 mv1 mv2 l1 l2 x,
            Oware.scan g1 true b mv1 = Ok l1 ->
            Oware.scan g2 false b mv2 = Ok l2 -> x ∈ l1 -> x ∉ l2).
  { intros g1 g2 mv1 mv2 l1 l2 x H1 H2 Hx1 Hx2.
    destruct (scan_elem _ _ _ _ _ _ H1 Hx1) as (_ & ? & _ & _ & E1).
    destruct (scan_elem _ _ _ _ _ _ H2 Hx2) as (_ & ? & _ & _ & E2).
    congruence. }
  assert (Hsize : forall mv1 mv2 l1 l2 x,
            Oware.scan (fun _ s => (0 <? s) && (s <? 3)) false b mv1 = Ok l1 ->
            Oware.scan (fun _ s => s >? 2) false b mv2 = Ok l2 ->
            x ∈ l1 -> x ∉ l2).
  { intros mv1 mv2 l1 l2 x H1 H2 Hx1 Hx2.
    destruct (scan_elem _ _ _ _ _ _ H1 Hx1) as (_ & s1 & E1 & G1 & _).
    destruct (scan_elem _ _ _ _ _ _ H2 Hx2) as (_ & s2 & E2 & G2 & _).
    rewrite E1 in E2. injection E2 as <-.
    apply andb_true_iff in G1 as [_ G1]. apply Z.ltb_lt in G1.
    apply Z.gtb_lt in G2. lia. }
  destruct (t =? Oware.SOUTH);
    apply bind_Ok in H as (caps & Hcaps & H);
    destruct (negb _);
    repeat (apply bind_Ok in H as (? & ? & H));
    injection H as <-;
    repeat (apply NoDup_app; split; [eauto 2|split; [|eauto 3]]);
    intros z Hz; rewrite ?not_elem_of_app; eauto.
Qed.

Lemma legal_moves_distinct_witness : NoDup [4; 0; 1; 2; 3; 5]%nat.
Proof.
  apply (legal_moves_distinct clamp_board Oware.SOUTH). vm_compute. reflexivity.
Defined.

(** X8: [xlegal_moves] yields the capturing moves first: its result is the
    result of [xdisruptive_moves], all captures, followed by moves that are
    not captures. *)
Theorem captures_come_first (b : list Z) (t : Z) (ms : list nat) :
  Oware.xlegal_moves b t = Ok ms ->
  exists caps rest,
    Oware.xdisruptive_moves b t = Ok caps
    /\ ms = caps ++ rest
    /\ Forall (fun m => Oware.is_capture b m = Ok true) caps
    /\ Forall (fun m => Oware.is_capture b m = Ok false) rest.
Proof.
  intros H. unfold Oware.xlegal_moves, Oware.xdisruptive_moves in *.
  assert (Hall : forall guard c moves ms',
            Oware.scan guard c b moves = Ok ms' ->
            Forall (fun m => Oware.is_capture b m = Ok c) ms').
  { intros guard c moves ms' Hs. apply Forall_forall. intros m Hm.
    destruct (scan_elem _ _ _ _ _ _ Hs Hm) as (_ & ? & _ & _ & E). exact E. }
  destruct (t =? Oware.SOUTH);
    apply bind_Ok in H as (caps & Hcaps & H);
    destruct (negb _);
    repeat (apply bind_Ok in H as (? & ? & H));
    injection H as <-;
    eexists _, _; (split; [exact Hcaps|]); (split; [reflexivity|]);
    (split; [eauto|]); rewrite ?Forall_app; eauto.
Qed.

Lemma captures_come_first_witness :
  exists caps rest,
    Oware.xdisruptive_moves clamp_board Oware.SOUTH = Ok caps
    /\ [4; 0; 1; 2; 3; 5]%nat = caps ++ rest
    /\ Forall (fun m => Oware.is_capture clamp_board m = Ok true) caps
    /\ Forall (fun m => Oware.is_capture clamp_board m = Ok false) rest.
Proof.
  apply (captures_come_first clamp_board Oware.SOUTH). vm_compute. reflexivity.
Defined.

(** ** Ends of the game *)

Lemma any_reaches_spec (bound : Z) (b : list Z) (houses : list nat) :
  Forall (fun h => (h < length b)%nat) houses ->
  Oware.any_reaches bound b houses
  = Ok (existsb (fun h => Oware.reaches bound h (b !!! h)) houses).
Proof.
  induction 1 as [|h houses Hh _ IH]; [reflexivity|].
  destruct (lookup_lt_is_Some_2 b h Hh) as [v Hv].
  simpl. rewrite (getitem_lookup _ _ _ Hv). simpl.
  rewrite (list_lookup_total_correct _ _ _ Hv).
  destruct (Oware.reaches bound h v); [reflexivity | exact IH].
Qed.

Lemma has_legal_moves_spec (b : list Z) (t : Z) :
  wf_board b ->
  exists r, Oware.has_legal_moves b t = Ok r
    /\ (r = true <-> exists m, playable b t m).
Proof.
  intros [Hlen Hnn]. board_entries b Hlen.
  repeat match goal with
         | H : Forall _ (_ :: _) |- _ => apply Forall_cons in H as [? H]
         end.
  unfold Oware.has_legal_moves, playable, Oware.row_eqb, Oware._EMPTY_ROW, slice.
  setoid_rewrite in_mover_row.
  destruct (t =? Oware.SOUTH); simpl take; simpl drop.
  - case_bool_decide as Hown; cbn [negb].
    + exists false. split; [reflexivity|]. split; [discriminate|].
      intros (m & Hm & s & Hs & Hpos & _). exfalso.
      simplify_eq. moves_below Hm; simpl in Hs; simplify_eq; lia.
    + case_bool_decide as Hopp; cbn [negb].
      * rewrite any_reaches_spec by (repeat constructor; simpl; lia).
        eexists. split; [reflexivity|]. rewrite existsb_exists. split.
        -- intros (m & Hm & Hr). apply in_row_down in Hm.
           apply reaches_spec in Hr. exists m. split; [exact Hm|].
           exists ([b0; b1; b2; b3; b4; b5; b6; b7; b8; b9; b10; b11; b12; b13] !!! m).
           split; [apply list_lookup_lookup_total_lt; simpl; lia|].
           split; [lia|]. intros _. unfold reach.
           destruct (Nat.ltb_spec m 6); lia.
        -- intros (m & Hm & s & Hs & Hpos & Hreach). exists m.
           split; [apply in_row_down, Hm|].
           rewrite (list_lookup_total_correct _ _ _ Hs). apply reaches_spec.
           split; [exact Hpos|].
           assert (Ob : opp_base m = 6%nat)
             by (unfold opp_base; destruct (Nat.ltb_spec m 6); [reflexivity|lia]).
           rewrite Ob in Hreach. specialize (Hreach Hopp).
           unfold reach in Hreach. destruct (Nat.ltb_spec m 6); lia.
      * exists true. split; [reflexivity|]. split; [intros _|reflexivity].
        assert (Hex : exists m s, (m < 6)%nat
                  /\ [b0; b1; b2; b3; b4; b5; b6; b7; b8; b9; b10; b11; b12; b13]
                     !! m = Some s /\ 1 <= s).
        { destruct (decide (b0 = 0)); [|exists 0%nat, b0; simpl; split; [lia|split; [reflexivity|lia]]].
          destruct (decide (b1 = 0)); [|exists 1%nat, b1; simpl; split; [lia|split; [reflexivity|lia]]].
          destruct (decide (b2 = 0)); [|exists 2%nat, b2; simpl; split; [lia|split; [reflexivity|lia]]].
          destruct (decide (b3 = 0)); [|exists 3%nat, b3; simpl; split; [lia|split; [reflexivity|lia]]].
          destruct (decide (b4 = 0)); [|exists 4%nat, b4; simpl; split; [lia|split; [reflexivity|lia]]].
          destruct (decide (b5 = 0)); [|exists 5%nat, b5; simpl; split; [lia|split; [reflexivity|lia]]].
          exfalso. apply Hown. congruence. }
        destruct Hex as (m & s & Hm & Hs & Hpos). exists m. split; [exact Hm|].
        exists s. split; [exact Hs|]. split; [exact Hpos|].
        assert (Ob : opp_base m = 6%nat)
          by (unfold opp_base; destruct (Nat.ltb_spec m 6); [reflexivity|lia]).
        rewrite Ob. simpl. intros E. exfalso. apply Hopp. exact E.
  - case_bool_decide as Hown; cbn [negb].
    + exists false. split; [reflexivity|]. split; [discriminate|].
      intros (m & Hm & s & Hs & Hpos & _). exfalso. simplify_eq.
      destruct Hm as [Hm6 Hm]. do 6 (destruct m as [|m]; [lia|]).
      do 6 apply Nat.succ_lt_mono in Hm.
      moves_below Hm; simpl in Hs; simplify_eq; lia.
    + case_bool_decide as Hopp; cbn [negb].
      * rewrite any_reaches_spec by (repeat constructor; simpl; lia).
        eexists. split; [reflexivity|]. rewrite existsb_exists. split.
        -- intros (m & Hm & Hr). apply in_far_row_down in Hm.
           apply reaches_spec in Hr. exists m. split; [exact Hm|].
           exists ([b0; b1; b2; b3; b4; b5; b6; b7; b8; b9; b10; b11; b12; b13] !!! m).
           split; [apply list_lookup_lookup_total_lt; simpl; lia|].
           split; [lia|]. intros _. unfold reach.
           destruct (Nat.ltb_spec m 6); lia.
        -- intros (m & Hm & s & Hs & Hpos & Hreach). exists m.
           split; [apply in_far_row_down, Hm|].
           rewrite (list_lookup_total_correct _ _ _ Hs). apply reaches_spec.
           split; [exact Hpos|].
           assert (Ob : opp_base m = 0%nat)
             by (unfold opp_base; destruct (Nat.ltb_spec m 6); [lia|reflexivity]).
           rewrite Ob in Hreach. specialize (Hreach Hopp).
           unfold reach in Hreach. destruct (Nat.ltb_spec m 6); lia.
      * exists true. split; [reflexivity|]. split; [intros _|reflexivity].
        assert (Hex : exists m s, (6 <= m < 12)%nat
                  /\ [b0; b1; b2; b3; b4; b5; b6; b7; b8; b9; b10; b11; b12; b13]
                     !! m = Some s /\ 1 <= s).
        { destruct (decide (b6 = 0)); [|exists 6%nat, b6; simpl; split; [lia|split; [reflexivity|lia]]].
          destruct (decide (b7 = 0)); [|exists 7%nat, b7; simpl; split; [lia|split; [reflexivity|lia]]].
          destruct (decide (b8 = 0)); [|exists 8%nat, b8; simpl; split; [lia|split; [reflexivity|lia]]].
          destruct (decide (b9 = 0)); [|exists 9%nat, b9; simpl; split; [lia|split; [reflexivity|lia]]].
          destruct (decide (b10 = 0)); [|exists 10%nat, b10; simpl; split; [lia|split; [reflexivity|lia]]].
          destruct (decide (b11 = 0)); [|exists 11%nat, b11; simpl; split; [lia|split; [reflexivity|lia]]].
          exfalso. apply Hown. congruence. }
        destruct Hex as (m & s & Hm & Hs & Hpos). exists m. split; [exact Hm|].
        exists s. split; [exact Hs|]. split; [exact Hpos|].
        assert (Ob : opp_base m = 0%nat)
          by (unfold opp_base; destruct (Nat.ltb_spec m 6); [lia|reflexivity]).
        rewrite Ob. simpl. intros E. exfalso. apply Hopp. exact E.
Qed.

(** X7: on a board of 14 non-negative entries, [has_legal_moves] answers
    true exactly when [xlegal_moves] yields at least one move. *)
Theorem has_legal_moves_agrees (b : list Z) (t : Z) :
  wf_board b ->
  exists r ms, Oware.has_legal_moves b t = Ok r
    /\ Oware.xlegal_moves b t = Ok ms
    /\ (r = true <-> ms <> []).
Proof.
  intros Hwf. destruct (has_legal_moves_spec b t Hwf) as (r & Hr & Hiff).
  exists r, (legal_list b t). split; [exact Hr|].
  split; [apply xlegal_moves_list, Hwf|].
  rewrite Hiff. split.
  - intros (m & Hm) E. apply in_legal_list in Hm; [|apply Hwf].
    rewrite E in Hm. inversion Hm.
  - intros Hne. destruct (legal_list b t) as [|m l] eqn:E; [congruence|].
    exists m. apply in_legal_list; [apply Hwf|]. rewrite E. left.
Qed.

Lemma has_legal_moves_agrees_witness :
  exists r ms, Oware.has_legal_moves [0;0;0;0;0;3; 0;0;0;0;0;0; 20;25] Oware.NORTH = Ok r
    /\ Oware.xlegal_moves [0;0;0;0;0;3; 0;0;0;0;0;0; 20;25] Oware.NORTH = Ok ms
    /\ (r = true <-> ms <> []).
Proof.
  apply (has_legal_moves_agrees [0;0;0;0;0;3; 0;0;0;0;0;0; 20;25] Oware.NORTH).
  split; [reflexivity|]. repeat constructor; lia.
Defined.

(** X9: on a board of 14 entries [get_winner] and [is_end] do not raise,
    and [get_winner] answers [None] exactly when [is_end] answers false. *)
Theorem winner_iff_end (b : list Z) (t : Z) :
  length b = 14%nat ->
  exists w e, Oware.get_winner b t = Ok w /\ Oware.is_end b t = Ok e
    /\ (w = None <-> e = false).
Proof.
  intros Hlen. destruct (has_legal_moves_total b t Hlen) as [r Hr].
  board_entries b Hlen.
  unfold Oware.get_winner, Oware.is_end, Oware.get_final_board.
  rewrite Hr. simpl.
  destruct (b12 >? 24);
    [do 2 eexists; split; [reflexivity|split; [reflexivity|split; discriminate]]|].
  destruct (b13 >? 24);
    [do 2 eexists; split; [reflexivity|split; [reflexivity|split; discriminate]]|].
  destruct r; simpl;
    [do 2 eexists; split; [reflexivity|split; [reflexivity|split; reflexivity]]|].
  destruct ((b12 =? b13) && (b13 =? 24)); simpl;
    repeat match goal with
           | |- context [if ?c then _ else _] => destruct c
           end;
    do 2 eexists; (split; [reflexivity|split; [reflexivity|split; discriminate]]).
Qed.

Lemma winner_iff_end_witness :
  exists w e, Oware.get_winner Oware.get_initial_board Oware.SOUTH = Ok w
    /\ Oware.is_end Oware.get_initial_board Oware.SOUTH = Ok e
    /\ (w = None <-> e = false).
Proof.
  apply (winner_iff_end Oware.get_initial_board Oware.SOUTH). reflexivity.
Defined.

(** X10: on a board of 14 non-negative entries holding 48 seeds,
    [get_final_score] is 10000, -10000 or 0 according to whether SOUTH's
    store in [get_final_board] is greater than, less than or equal to
    NORTH's. *)
Theorem final_score_reads_final_board (b : list Z) :
  wf_board b -> total b = 48 ->
  exists score fb s n,
    Oware.get_final_score b = Ok score
    /\ Oware.get_final_board b = Ok fb
    /\ fb !! 12%nat = Some s /\ fb !! 13%nat = Some n
    /\ (s > n /\ score = 10000 \/ s < n /\ score = -10000
        \/ s = n /\ score = 0).
Proof.
  intros [Hlen Hnn] Htot. board_entries b Hlen.
  repeat match goal with
         | H : Forall _ (_ :: _) |- _ => apply Forall_cons in H as [? H]
         end.
  unfold total in Htot. simpl in Htot.
  unfold Oware.get_final_score, Oware.get_final_board, sum, slice. simpl.
  destruct (Z.gtb_spec b12 24);
    [do 4 eexists; repeat (split; [reflexivity|]); lia|].
  destruct (Z.gtb_spec b13 24);
    [do 4 eexists; repeat (split; [reflexivity|]); lia|].
  destruct (Z.eqb_spec b12 b13), (Z.eqb_spec b13 24); simpl;
    destruct (Z.gtb_spec (b12 + b0 + b1 + b2 + b3 + b4 + b5) 24);
    destruct (Z.ltb_spec (b12 + b0 + b1 + b2 + b3 + b4 + b5) 24);
    do 4 eexists; repeat (split; [reflexivity|]); lia.
Qed.

Lemma final_score_reads_final_board_witness :
  exists score fb s n,
    Oware.get_final_score clamp_board = Ok score
    /\ Oware.get_final_board clamp_board = Ok fb
    /\ fb !! 12%nat = Some s /\ fb !! 13%nat = Some n
    /\ (s > n /\ score = 10000 \/ s < n /\ score = -10000
        \/ s = n /\ score = 0).
Proof.
  apply (final_score_reads_final_board clamp_board).
  - split; [reflexivity|]. repeat constructor; lia.
  - reflexivity.
Defined.

(** X11: on a board of 14 non-negative entries holding 48 seeds, when
    [get_winner] names a result (1 for SOUTH, -1 for NORTH, 0 for a draw),
    [get_final_score] is 10000 times that result. *)
Theorem winner_agrees_with_final_score (b : list Z) (t w : Z) :
  wf_board b -> total b = 48 ->
  Oware.get_winner b t = Ok (Some w) ->
  Oware.get_final_score b = Ok (10000 * w).
Proof.
  intros [Hlen Hnn] Htot. destruct (has_legal_moves_total b t Hlen) as [r Hr].
  board_entries b Hlen.
  repeat match goal with
         | H : Forall _ (_ :: _) |- _ => apply Forall_cons in H as [? H]
         end.
  unfold total in Htot. simpl in Htot.
  unfold Oware.get_winner, Oware.get_final_score, Oware.get_final_board,
    Oware.SOUTH, Oware.NORTH, Oware.DRAW, sum, slice.
  rewrite Hr. simpl.
  destruct (Z.gtb_spec b12 24); [intros E; injection E as <-; reflexivity|].
  destruct (Z.gtb_spec b13 24); [intros E; injection E as <-; reflexivity|].
  destruct r; simpl; [discriminate|].
  destruct (Z.eqb_spec b12 b13), (Z.eqb_spec b13 24); simpl;
    repeat match goal with
           | |- context [?x >? ?y] => destruct (Z.gtb_spec x y)
           | |- context [?x <? ?y] => destruct (Z.ltb_spec x y)
           end;
    intros E; injection E as <-; try reflexivity; exfalso; lia.
Qed.

Lemma winner_agrees_with_final_score_witness :
  Oware.get_final_score [0;0;0;0;0;3; 0;0;0;0;0;0; 21;24] = Ok (10000 * 0).
Proof.
  apply (winner_agrees_with_final_score [0;0;0;0;0;3; 0;0;0;0;0;0; 21;24]
           Oware.NORTH 0).
  - split; [reflexivity|]. repeat constructor; lia.
  - reflexivity.
  - vm_compute. reflexivity.
Defined.

(** ** Notation *)

(** X12: a move identifier 0..11 survives the trip through its letter;
    any other identifier is refused by [to_move_notation]. *)
Theorem move_notation_round_trip (move : Z) :
  (0 <= move <= 11 ->
     exists n, Oware.to_move_notation move = Ok n
       /\ Oware.to_move n = Ok (Z.to_nat move))
  /\ (~ 0 <= move <= 11 -> Oware.to_move_notation move = Raise ValueError).
Proof.
  split.
  - intros H. assert (E : exists k, move = Z.of_nat k /\ (k < 12)%nat)
      by (exists (Z.to_nat move); lia).
    destruct E as (k & -> & Hk).
    moves_below Hk; eexists; split; reflexivity.
  - intros H. unfold Oware.to_move_notation.
    destruct (Z.leb_spec 0 move), (Z.leb_spec move 5), (Z.leb_spec 6 move),
      (Z.leb_spec move 11); simpl; try reflexivity; lia.
Qed.

Lemma move_notation_round_trip_witness :
  exists n, Oware.to_move_notation 8 = Ok n /\ Oware.to_move n = Ok (Z.to_nat 8).
Proof. apply (proj1 (move_notation_round_trip 8)). lia. Defined.

(** X13: whatever [to_move] accepts is a single letter, maps to a house
    0..11, and is the letter [to_move_notation] gives for that house. *)
Theorem move_letter_round_trip (n : string) (move : nat) :
  Oware.to_move n = Ok move ->
  (move < 12)%nat /\ Oware.to_move_notation (Z.of_nat move) = Ok n.
Proof.
  intros H.
  destruct n as [|c [|c' n]]; try discriminate H.
  pose proof (ascii_nat_embedding c) as Hc.
  change (Oware.to_move (String c ""))
    with (if (65 <=? nat_of_ascii c)%nat && (nat_of_ascii c <=? 70)%nat
          then Ok (nat_of_ascii c - 65)%nat
          else if (97 <=? nat_of_ascii c)%nat && (nat_of_ascii c <=? 102)%nat
               then Ok (nat_of_ascii c - 91)%nat
               else Raise ValueError) in H.
  set (o := nat_of_ascii c) in *.
  unfold Oware.to_move_notation.
  destruct (Nat.leb_spec 65 o), (Nat.leb_spec o 70), (Nat.leb_spec 97 o),
    (Nat.leb_spec o 102); simpl in H; try discriminate H; try lia;
    injection H as <-; (split; [lia|]).
  - destruct (Z.leb_spec 0 (Z.of_nat (o - 65))),
      (Z.leb_spec (Z.of_nat (o - 65)) 5); simpl; try lia.
    replace (Z.to_nat (65 + Z.of_nat (o - 65))) with o by lia.
    rewrite Hc. reflexivity.
  - destruct (Z.leb_spec 0 (Z.of_nat (o - 91))),
      (Z.leb_spec (Z.of_nat (o - 91)) 5), (Z.leb_spec 6 (Z.of_nat (o - 91))),
      (Z.leb_spec (Z.of_nat (o - 91)) 11); simpl; try lia.
    replace (Z.to_nat (91 + Z.of_nat (o - 91))) with o by lia.
    rewrite Hc. reflexivity.
Qed.

Lemma move_letter_round_trip_witness :
  (8 < 12)%nat /\ Oware.to_move_notation (Z.of_nat 8) = Ok "c"%string.
Proof. apply (move_letter_round_trip "c" 8). reflexivity. Defined.

Local Open Scope string_scope.

Lemma run_items_more (l : list Z) (j : nat) (rest : string) (g : re.groups)
  (k : string -> re.groups -> option re.groups) :
  Forall (fun z => 0 <= z <= 49) l ->
  re.run (re.Rep (length l + j) item) (dashed (str <$> l) ++ rest) g k
  = re.run (re.Rep j item) rest g k.
Proof.
  induction 1 as [|z l Hz _ IH]; [reflexivity|].
  change (length (z :: l) + j)%nat with (S (length l + j)).
  rewrite run_rep_S.
  change (dashed (str <$> z :: l)) with (str z ++ "-" ++ dashed (str <$> l)).
  rewrite !append_assoc.
  destruct (item_facts z Hz) as (Hrun & _ & _). rewrite Hrun. exact IH.
Qed.

Lemma side_is_no_item (t : Z) (j : nat) (g : re.groups)
  (k : string -> re.groups -> option re.groups) :
  re.run (re.Rep (S j) item) (if (t =? Oware.SOUTH)%Z then "S" else "N") g k
  = None.
Proof. destruct (t =? Oware.SOUTH)%Z; reflexivity. Qed.

Lemma number_is_no_side (z : Z) (rest : string) (g : re.groups)
  (k : string -> re.groups -> option re.groups) :
  0 <= z <= 49 ->
  re.run (re.Seq (re.Group 2 (re.Alt (re.Chr "S") (re.Chr "N"))) re.Eol)
    (str z ++ "-" ++ rest) g k = None.
Proof.
  intros H. destruct (small_number z H) as (n & -> & Hn).
  do 50 (destruct n as [|n]; [reflexivity|]). lia.
Qed.

Lemma dashed_app (l1 l2 : list string) :
  dashed (l1 ++ l2) = dashed l1 ++ dashed l2.
Proof.
  induction l1 as [|x l1 IH]; [reflexivity|].
  change (dashed ((x :: l1) ++ l2)) with (x ++ "-" ++ dashed (l1 ++ l2)).
  change (dashed (x :: l1)) with (x ++ "-" ++ dashed l1).
  rewrite IH, !append_assoc. reflexivity.
Qed.

(** X14: a board whose entries are between 0 and 49 but which does not have
    exactly 14 of them is written by [to_board_notation] to a text that
    [to_position] refuses. *)
Theorem position_needs_14_entries (b : list Z) (t : Z) :
  length b <> 14%nat -> Forall (fun z => 0 <= z <= 49) b ->
  Oware.to_position (Oware.to_board_notation b t) = Raise ValueError.
Proof.
  intros Hlen Hall.
  unfold Oware.to_board_notation. rewrite join_snoc.
  set (side := if (t =? Oware.SOUTH)%Z then "S" else "N").
  assert (Hm : re.match_ Oware.position_pattern (dashed (str <$> b) ++ side)
               = None); [|unfold Oware.to_position; rewrite Hm; reflexivity].
  unfold re.match_, Oware.position_pattern.
  change (re.Seq (re.Opt (re.Cls "1" "4"))
            (re.Seq (re.Cls "0" "9") (re.Chr "-"))) with item.
  change (re.run (re.Seq ?r1 ?r2) ?s ?g ?k)
    with (re.run r1 s g (fun s' g' => re.run r2 s' g' k)).
  change (re.run (re.Group 1 ?r) ?s ?g ?k)
    with (re.run r s g (fun s' g' => k s' (<[1%nat := re.consumed s s']> g'))).
  destruct (Nat.lt_ge_cases (length b) 14) as [Hlt|Hge].
  - replace 14%nat with (length b + S (13 - length b))%nat by lia.
    rewrite run_items_more by exact Hall. apply side_is_no_item.
  - rewrite <- (take_drop 14 b) in Hall |- *.
    apply Forall_app in Hall as [Hall1 Hall2].
    destruct (drop 14 b) as [|z l2] eqn:E.
    { apply (f_equal length) in E. rewrite length_drop in E. simpl in E. lia. }
    apply Forall_cons in Hall2 as [Hz _].
    rewrite fmap_app, dashed_app, append_assoc.
    replace 14%nat with (length (take 14 b)) at 1
      by (rewrite length_take; lia).
    rewrite run_items by exact Hall1.
    change (dashed (str <$> z :: l2)) with (str z ++ "-" ++ dashed (str <$> l2)).
    rewrite !append_assoc.
    apply (number_is_no_side z _ _ _ Hz).
Qed.

Lemma position_needs_14_entries_witness :
  Oware.to_position (Oware.to_board_notation [4; 4; 4; 0; 0] Oware.SOUTH)
  = Raise ValueError.
Proof.
  apply (position_needs_14_entries [4; 4; 4; 0; 0] Oware.SOUTH).
  - discriminate.
  - repeat constructor; lia.
Defined.

Local Close Scope string_scope.

(** * Further properties of the search *)

Section Search.

Variable g : Engine.game.

Lemma search_moves_keeps
  (search : Engine.engine -> list Z -> Z -> Z -> Z -> Z ->
            result (Z * Engine.engine))
  (board : list Z) (turn beta depth : Z) (moves : list nat) :
  (forall self b t a be d v self',
     search self b t a be d = Ok (v, self') -> keeps self self') ->
  forall alpha self v self',
    Engine.search_moves search g board turn beta depth moves alpha self
    = Ok (v, self') ->
    keeps self self'.
Proof.
  intros Hrec. induction moves as [|m moves IH]; intros alpha self v self' H.
  - injection H as _ <-. split; reflexivity.
  - simpl in H. apply bind_Ok in H as (cboard & _ & H).
    apply bind_Ok in H as ([value self1] & Hs & H).
    apply Hrec in Hs. destruct Hs as [Hl Ha].
    destruct (- value >=? beta).
    + injection H as _ <-. split; assumption.
    + destruct (- value >? alpha); apply IH in H; destruct H as [Hl' Ha'];
        split; congruence.
Qed.

Lemma search_keeps (fuel : nat) :
  forall self board turn alpha beta depth v self',
    Engine._search fuel g self board turn alpha beta depth = Ok (v, self') ->
    keeps self self'.
Proof.
  induction fuel as [|fuel IH];
    intros self board turn alpha beta depth v self' H; [discriminate|].
  simpl in H. unfold keeps.
  destruct (Engine._aborted self) eqn:Hab.
  { injection H as _ <-. simpl. auto. }
  apply bind_Ok in H as (ended & _ & H).
  destruct (ended || _) eqn:Hterm.
  { apply bind_Ok in H as (final & _ & H). injection H as _ <-. simpl. auto. }
  destruct (depth =? 0).
  { apply bind_Ok in H as (score & _ & H). injection H as _ <-. simpl. auto. }
  apply bind_Ok in H as (moves & _ & H).
  apply bind_Ok in H as ([alpha' self1] & Hloop & H).
  apply (search_moves_keeps (Engine._search fuel g)) in Hloop; [|exact IH].
  destruct Hloop as [Hl Ha]. simpl in Hl, Ha.
  destruct (Engine._line self1 !! (board, turn)); [|discriminate].
  injection H as _ <-. simpl. split; [|congruence].
  rewrite Hl. apply delete_insert_id.
  apply orb_false_iff in Hterm as [_ Hterm].
  apply bool_decide_eq_false in Hterm.
  destruct (Engine._line self !! (board, turn)) eqn:E; [|reflexivity].
  exfalso. apply Hterm. eauto.
Qed.


Lemma search_moves_window
  (search : Engine.engine -> list Z -> Z -> Z -> Z -> Z ->
            result (Z * Engine.engine))
  (board : list Z) (turn beta depth : Z) (moves : list nat) :
  forall alpha self v self',
    alpha <= beta ->
    Engine.search_moves search g board turn beta depth moves alpha self
    = Ok (v, self') ->
    alpha <= v <= beta.
Proof.
  induction moves as [|m moves IH]; intros alpha self v self' Hab H.
  - injection H as <- _. lia.
  - simpl in H. apply bind_Ok in H as (cboard & _ & H).
    apply bind_Ok in H as ([value self1] & _ & H).
    destruct (Z.geb_spec (- value) beta).
    + injection H as <- _. lia.
    + destruct (Z.gtb_spec (- value) alpha); apply IH in H; lia.
Qed.

(** X16: when [_search] goes through its move loop (flag unset, position
    neither final nor repeated, depth not 0) with [alpha <= beta], the value
    it returns lies between [alpha] and [beta]. *)
Theorem search_stays_in_window (fuel : nat) (self : Engine.engine)
  (board : list Z) (turn alpha beta depth v : Z) (self' : Engine.engine) :
  Engine._aborted self = false ->
  Engine.is_end g board turn = Ok false ->
  Engine._line self !! (board, turn) = None ->
  depth <> 0 -> alpha <= beta ->
  Engine._search fuel g self board turn alpha beta depth = Ok (v, self') ->
  alpha <= v <= beta.
Proof.
  intros Hab Hend Hline Hd Hw H.
  destruct fuel as [|fuel]; [discriminate|].
  simpl in H. rewrite Hab, Hend in H. simpl in H.
  rewrite bool_decide_eq_false_2 in H
    by (rewrite Hline; intros [? ?]; discriminate).
  destruct (Z.eqb_spec depth 0); [contradiction|].
  apply bind_Ok in H as (moves & _ & H).
  apply bind_Ok in H as ([alpha' self1] & Hloop & H).
  apply search_moves_window in Hloop; [|exact Hw].
  destruct (Engine._line self1 !! (board, turn)); [|discriminate].
  injection H as <- _. exact Hloop.
Qed.

End Search.


Lemma search_stays_in_window_witness : -1000 <= 0 <= 1000.
Proof.
  apply (search_stays_in_window Engine.oware 100 (Engine.mkEngine false ∅ 0)
           Oware.get_initial_board 1 (-1000) 1000 3 0
           (Engine.mkEngine false ∅ 53)).
  - reflexivity.
  - vm_compute. reflexivity.
  - reflexivity.
  - lia.
  - lia.
  - vm_compute. reflexivity.
Defined.



Lemma get_score_total (b : list Z) :
  length b = 14%nat -> exists v, Oware.get_score b = Ok v.
Proof. intros H. board_entries b H. eexists. reflexivity. Qed.

Lemma search_moves_returns
  (search : Engine.engine -> list Z -> Z -> Z -> Z -> Z ->
            result (Z * Engine.engine))
  (board : list Z) (turn beta depth : Z) (moves : list nat) :
  length board = 14%nat ->
  Forall (fun m => (m < 12)%nat /\ exists s, board !! m = Some s /\ 1 <= s) moves ->
  (forall self b t a be, length b = 14%nat ->
     exists v self', search self b t a be (depth - 1) = Ok (v, self')) ->
  forall alpha self,
    exists v self',
      Engine.search_moves search Engine.oware board turn beta depth moves
        alpha self = Ok (v, self').
Proof.
  intros Hlen Hmoves Hrec.
  induction Hmoves as [|m moves (Hm & s & Hs & Hpos) _ IH]; intros alpha self.
  - do 2 eexists. reflexivity.
  - destruct (compute_board_total board m s Hlen Hm Hs Hpos)
      as (cboard & Hcb & Hcl & _).
    destruct (Hrec self cboard (- turn) (- beta) (- alpha) Hcl)
      as (value & self1 & Hv).
    simpl. rewrite Hcb. simpl. rewrite Hv. simpl.
    destruct (- value >=? beta); [do 2 eexists; reflexivity|].
    destruct (- value >? alpha); apply IH.
Qed.

(** X17: on a board of 14 entries and for a depth of at least 0, [_search]
    over the Oware rules returns a value, without raising, as soon as the
    call stack allows one more activation than the depth. *)
Theorem search_returns (fuel : nat) (self : Engine.engine) (board : list Z)
  (turn alpha beta depth : Z) :
  length board = 14%nat -> 0 <= depth -> (Z.to_nat depth < fuel)%nat ->
  exists v self',
    Engine._search fuel Engine.oware self board turn alpha beta depth
    = Ok (v, self').
Proof.
  revert self board turn alpha beta depth.
  induction fuel as [|fuel IH];
    intros self board turn alpha beta depth Hlen Hd Hfuel; [lia|].
  destruct (is_end_total board turn Hlen) as [ended He].
  destruct (get_final_score_total board Hlen) as [final Hf].
  destruct (get_score_total board Hlen) as [score Hsc].
  simpl. destruct (Engine._aborted self); [do 2 eexists; reflexivity|].
  rewrite He. simpl.
  destruct (ended || _) eqn:Hterm.
  { rewrite Hf. do 2 eexists. reflexivity. }
  destruct (Z.eqb_spec depth 0).
  { rewrite Hsc. do 2 eexists. reflexivity. }
  rewrite (xlegal_moves_list board turn Hlen). simpl.
  set (self1 := Engine.set_line _ _).
  destruct (search_moves_returns (Engine._search fuel Engine.oware)
              board turn beta depth (legal_list board turn) Hlen) with
    (alpha := alpha) (self := self1) as (v & self2 & Hloop).
  - apply Forall_forall. intros m Hm.
    apply in_legal_list in Hm; [|exact Hlen].
    destruct Hm as (Hrow & s & Hs & Hpos & _).
    split; [|eauto].
    apply in_mover_row in Hrow. destruct (turn =? Oware.SOUTH); lia.
  - intros self0 b t a be Hb. apply IH; [exact Hb | lia | lia].
  - rewrite Hloop. simpl.
    apply (search_moves_keeps Engine.oware (Engine._search fuel Engine.oware))
      in Hloop; [|apply search_keeps].
    destruct Hloop as [Hl _]. rewrite Hl. unfold self1. simpl.
    rewrite lookup_insert_eq. do 2 eexists. reflexivity.
Qed.

Lemma search_returns_witness :
  exists v self',
    Engine._search 4 Engine.oware (Engine.mkEngine false ∅ 0)
      Oware.get_initial_board 1 (-1000) 1000 3
    = Ok (v, self').
Proof.
  apply (search_returns 4 (Engine.mkEngine false ∅ 0) Oware.get_initial_board
           1 (-1000) 1000 3).
  - reflexivity.
  - lia.
  - simpl. lia.
Defined.

(** * Further properties of the tables *)

Lemma seed_drill_formula_all :
  forallb (fun m =>
    forallb (fun k =>
      bool_decide ((Machinery.SEED_DRILL !! m) ≫= (fun d => d !! k)
                   = Some ((m + 1 + k mod 11) mod 12)%nat))
      (seq 0 48)) (seq 0 12) = true.
Proof. vm_compute. reflexivity. Qed.

(** X19: the sowing table of house [m] has 48 entries and its entry [k] is
    house (m + 1 + k mod 11) mod 12: the houses after [m] in cyclic order,
    [m] itself left out. *)
Theorem seed_drill_formula (m k : nat) :
  (m < 12)%nat -> (k < 48)%nat ->
  exists d, Machinery.SEED_DRILL !! m = Some d /\ length d = 48%nat
    /\ d !! k = Some ((m + 1 + k mod 11) mod 12)%nat.
Proof.
  intros Hm Hk. destruct (seed_drill_lookup m Hm) as (d & Hd & Hl & _).
  exists d. split; [exact Hd|]. split; [exact Hl|].
  pose proof seed_drill_formula_all as H.
  rewrite forallb_forall in H. specialize (H m ltac:(apply in_seq; lia)).
  rewrite forallb_forall in H. specialize (H k ltac:(apply in_seq; lia)).
  apply bool_decide_eq_true in H. rewrite Hd in H. exact H.
Qed.

Lemma seed_drill_formula_witness :
  exists d, Machinery.SEED_DRILL !! 9%nat = Some d /\ length d = 48%nat
    /\ d !! 13%nat = Some ((9 + 1 + 13 mod 11) mod 12)%nat.
Proof. apply (seed_drill_formula 9 13); lia. Defined.

(** X20: the harvest chain of house [h] is [h], [h - 1], ... down to the
    first house of the row of [h]. *)
Theorem harvester_formula (h : nat) :
  (h < 12)%nat ->
  Machinery.HARVESTER !! h = Some (rev (seq (6 * (h / 6)) (h mod 6 + 1))).
Proof. intros H. moves_below H; reflexivity. Qed.

Lemma harvester_formula_witness :
  Machinery.HARVESTER !! 8%nat = Some (rev (seq (6 * (8 / 6)) (8 mod 6 + 1))).
Proof. apply (harvester_formula 8). lia. Defined.

Lemma reaper_keys (m : nat) (sdict : gmap Z (nat * gset (list Z))) :
  (m < 12)%nat -> Machinery.REAPER !! m = Some sdict ->
  map_Forall (fun s _ => 1 <= s <= 33) sdict.
Proof.
  intros H E.
  repeat (destruct m as [|m];
          [injection E as <-; apply (bool_decide_unpack _); vm_compute; exact I|]).
  lia.
Qed.

Lemma reaper_lookup_spec (m : nat) (sdict : gmap Z (nat * gset (list Z))) (s : Z) :
  (m < 12)%nat -> Machinery.REAPER !! m = Some sdict -> 1 <= s <= 33 ->
  let k := Z.to_nat s in
  let c := received m k !!! landing m k in
  1 <= c <= 3
  /\ (landing m k < 12)%nat
  /\ (faces m (landing m k) = true ->
      slice (received m k) (opp_base m) (opp_base m + 6)
      = row_received (landing m k - opp_base m) c)
  /\ sdict !! s
     = if faces m (landing m k)
       then Some (landing m k, row_forbidden (landing m k - opp_base m) c)
       else None.
Proof.
  intros Hm Hd Hs k c.
  destruct (table_facts_spec m k Hm) as (_ & Hl & _ & _ & Hc & Hrow & _ & Hlook);
    [unfold k; lia|].
  fold c in Hc, Hrow, Hlook. unfold k in Hc, Hlook at 1.
  rewrite Z2Nat.id in Hc, Hlook by lia.
  rewrite Hd in Hlook. simpl in Hlook.
  assert (Hc3 : 1 <= c <= 3) by lia.
  split; [exact Hc3|]. split; [exact Hl|]. split; [exact Hrow|].
  rewrite Hlook. destruct (Z.leb_spec c 3); [|lia].
  rewrite andb_true_r. reflexivity.
Qed.

(** X21: the capture table of house [m] has an entry for [s] seeds exactly
    when [s] is between 1 and 33 and the last of [s] seeds sown from [m]
    lands on the opponent's row; the entry names that landing house. *)
Theorem reaper_entry_exists (m : nat) (sdict : gmap Z (nat * gset (list Z)))
  (s : Z) :
  (m < 12)%nat -> Machinery.REAPER !! m = Some sdict ->
  (is_Some (sdict !! s)
   <-> 1 <= s <= 33 /\ faces m (landing m (Z.to_nat s)) = true)
  /\ (forall l forbidden, sdict !! s = Some (l, forbidden) ->
        l = landing m (Z.to_nat s)).
Proof.
  intros Hm Hd. pose proof (reaper_keys m sdict Hm Hd) as Hk.
  destruct (decide (1 <= s <= 33)) as [Hs|Hs].
  - destruct (reaper_lookup_spec m sdict s Hm Hd Hs) as (_ & _ & _ & Hlook).
    rewrite Hlook. destruct (faces m _); split.
    + split; [intros _; auto | intros _; eauto].
    + intros l F E. injection E as <- _. reflexivity.
    + split; [intros [? ?]; discriminate | intros [_ ?]; discriminate].
    + intros l F E. discriminate.
  - destruct (sdict !! s) as [e|] eqn:E.
    + exfalso. apply Hs. exact (Hk s e E).
    + split; [|intros; discriminate].
      split; [intros [? ?]; discriminate | intros [? _]; contradiction].
Qed.

Lemma reaper_entry_exists_witness :
  exists sdict, Machinery.REAPER !! 0%nat = Some sdict
    /\ (is_Some (sdict !! 17)
        <-> 1 <= 17 <= 33 /\ faces 0 (landing 0 (Z.to_nat 17)) = true)
    /\ (forall l forbidden, sdict !! 17 = Some (l, forbidden) ->
          l = landing 0 (Z.to_nat 17)).
Proof.
  eexists. split; [reflexivity|].
  apply (reaper_entry_exists 0 _ 17); [lia | reflexivity].
Defined.

(** X22: the rows an entry of the capture table forbids are exactly the
    rows of the opponent that the move would empty: a row of six
    non-negative houses is listed if and only if, once it has received the
    seeds of the sowing, the harvest from the landing house takes all of
    it. *)
Theorem reaper_forbids_grand_slams (m : nat)
  (sdict : gmap Z (nat * gset (list Z))) (s : Z) (l : nat)
  (forbidden : gset (list Z)) (row : list Z) :
  (m < 12)%nat -> Machinery.REAPER !! m = Some sdict ->
  sdict !! s = Some (l, forbidden) ->
  length row = 6%nat -> Forall (fun v => 0 <= v) row ->
  row ∈ forbidden
  <-> grand_slam (l - opp_base m)
        (zip_with Z.add row
           (slice (received m (Z.to_nat s)) (opp_base m) (opp_base m + 6)))
      = true.
Proof.
  intros Hm Hd He Hlen Hnn.
  pose proof (reaper_keys m sdict Hm Hd s _ He) as Hs. simpl in Hs.
  destruct (reaper_lookup_spec m sdict s Hm Hd Hs) as (Hc & Hl & Hrow & Hlook).
  rewrite He in Hlook.
  destruct (faces m (landing m (Z.to_nat s))) eqn:Hf; [|discriminate].
  injection Hlook as -> ->. rewrite (Hrow eq_refl).
  apply forbidden_spec; try assumption.
  unfold faces in Hf. apply andb_true_iff in Hf as [_ Hf].
  apply Nat.ltb_lt in Hf. lia.
Qed.

Lemma reaper_forbids_grand_slams_witness :
  exists forbidden,
    (Machinery.REAPER !! 5%nat) ≫= (fun sdict => sdict !! 1) = Some (6%nat, forbidden)
    /\ ([1; 0; 0; 0; 0; 0] ∈ forbidden
        <-> grand_slam (6 - opp_base 5)
              (zip_with Z.add [1; 0; 0; 0; 0; 0]
                 (slice (received 5 (Z.to_nat 1)) (opp_base 5) (opp_base 5 + 6)))
            = true).
Proof.
  eexists. split; [reflexivity|].
  apply (reaper_forbids_grand_slams 5 (Machinery.reaper_dict 5) 1 6);
    [lia | reflexivity | reflexivity | reflexivity | repeat constructor; lia].
Defined.

Local Open Scope string_scope.

(** ** Sequences of moves *)

Lemma run_star (r : re.regex) (s : string) (g : re.groups)
  (k : string -> re.groups -> option re.groups) :
  re.run (re.Star r) s g k = star_loop (re.run r) k (String.length s) s g.
Proof. reflexivity. Qed.

Lemma run_upper (c : ascii) (s : string) (g : re.groups)
  (k : string -> re.groups -> option re.groups) :
  re.run (re.Cls "A" "F") (String c s) g k
  = if (65 <=? nat_of_ascii c)%nat && (nat_of_ascii c <=? 70)%nat
    then k s g else None.
Proof. reflexivity. Qed.

Lemma run_lower (c : ascii) (s : string) (g : re.groups)
  (k : string -> re.groups -> option re.groups) :
  re.run (re.Cls "a" "f") (String c s) g k
  = if (97 <=? nat_of_ascii c)%nat && (nat_of_ascii c <=? 102)%nat
    then k s g else None.
Proof. reflexivity. Qed.

Lemma upper_test (c : ascii) :
  upper c -> (65 <=? nat_of_ascii c)%nat && (nat_of_ascii c <=? 70)%nat = true.
Proof.
  intros [H1 H2]. apply andb_true_iff. split; apply Nat.leb_le; assumption.
Qed.

Lemma lower_test (c : ascii) :
  lower c -> (97 <=? nat_of_ascii c)%nat && (nat_of_ascii c <=? 102)%nat = true.
Proof.
  intros [H1 H2]. apply andb_true_iff. split; apply Nat.leb_le; assumption.
Qed.

Lemma lower_not_upper (c : ascii) :
  lower c -> (65 <=? nat_of_ascii c)%nat && (nat_of_ascii c <=? 70)%nat = false.
Proof.
  intros [H1 H2]. apply andb_false_iff. right. apply Nat.leb_gt. lia.
Qed.

Lemma upper_not_lower (c : ascii) :
  upper c -> (97 <=? nat_of_ascii c)%nat && (nat_of_ascii c <=? 102)%nat = false.
Proof.
  intros [H1 H2]. apply andb_false_iff. left. apply Nat.leb_gt. lia.
Qed.

Lemma run_cls_nil (lo hi : ascii) (g : re.groups)
  (k : string -> re.groups -> option re.groups) :
  re.run (re.Cls lo hi) "" g k = None.
Proof. reflexivity. Qed.

Lemma run_opt (r : re.regex) (s : string) (g : re.groups)
  (k : string -> re.groups -> option re.groups) :
  re.run (re.Opt r) s g k
  = match re.run r s g k with Some m => Some m | None => k s g end.
Proof. reflexivity. Qed.

Lemma run_seq (r1 r2 : re.regex) (s : string) (g : re.groups)
  (k : string -> re.groups -> option re.groups) :
  re.run (re.Seq r1 r2) s g k
  = re.run r1 s g (fun s' g' => re.run r2 s' g' k).
Proof. reflexivity. Qed.

Lemma run_group (i : nat) (r : re.regex) (s : string) (g : re.groups)
  (k : string -> re.groups -> option re.groups) :
  re.run (re.Group i r) s g k
  = re.run r s g (fun s' g' => k s' (<[i := re.consumed s s']> g')).
Proof. reflexivity. Qed.

Lemma run_alt (r1 r2 : re.regex) (s : string) (g : re.groups)
  (k : string -> re.groups -> option re.groups) :
  re.run (re.Alt r1 r2) s g k
  = match re.run r1 s g k with Some m => Some m | None => re.run r2 s g k end.
Proof. reflexivity. Qed.

Lemma some_or {A : Type} (o o' : option A) :
  o <> None -> match o with Some m => Some m | None => o' end <> None.
Proof. destruct o; [discriminate | contradiction]. Qed.

Lemma star_loop_S
  (body : string -> re.groups -> (string -> re.groups -> option re.groups) ->
          option re.groups)
  (k : string -> re.groups -> option re.groups)
  (fuel : nat) (s : string) (g : re.groups) :
  star_loop body k (S fuel) s g
  = match body s g (fun s' g' =>
            if (String.length s' <? String.length s)%nat
            then star_loop body k fuel s' g' else None) with
    | Some m => Some m
    | None => k s g
    end.
Proof. reflexivity. Qed.

(** The optional last letter of a branch, at the end of the text. *)
Lemma last_letter_upper (s : string) (g : re.groups)
  (k : string -> re.groups -> option re.groups) :
  (forall g', k "" g' <> None) ->
  s = "" \/ (exists u, s = String u "" /\ upper u) ->
  re.run (re.Opt (re.Cls "A" "F")) s g k <> None.
Proof.
  intros Hk [-> | (u & -> & Hu)]; rewrite run_opt.
  - rewrite run_cls_nil. apply Hk.
  - rewrite run_upper, (upper_test u Hu). apply some_or, Hk.
Qed.

(** The tail of the second branch of the pattern, after the first letter:
    [([A-F][a-f])*[A-F]?] up to the end of the text. *)
Lemma pairs_loop (fuel : nat) :
  forall (s : string) (g : re.groups)
         (k : string -> re.groups -> option re.groups),
    alternates true s -> (String.length s <= 2 * fuel + 1)%nat ->
    (forall g', k "" g' <> None) ->
    star_loop (re.run (re.Group 4 (re.Seq (re.Cls "A" "F") (re.Cls "a" "f"))))
      (fun s' g' => re.run (re.Opt (re.Cls "A" "F")) s' g' k) fuel s g
    <> None.
Proof.
  induction fuel as [|fuel IH]; intros s g k Halt Hlen Hk.
  - change (star_loop ?b ?k' 0 s g) with (k' s g). cbv beta.
    apply last_letter_upper; [exact Hk|].
    destruct s as [|u [|l s']]; [left; reflexivity | | simpl in Hlen; lia].
    right. exists u. split; [reflexivity | apply Halt].
  - destruct s as [|u [|l s']].
    + rewrite star_loop_S, run_group, run_seq, run_cls_nil.
      apply last_letter_upper; [exact Hk | left; reflexivity].
    + destruct Halt as [Hu _]. rewrite star_loop_S.
      rewrite run_group, run_seq, run_upper, (upper_test u Hu), run_cls_nil.
      apply last_letter_upper; [exact Hk|]. right. eauto.
    + destruct Halt as (Hu & Hl & Halt). simpl in Hu, Hl, Halt.
      rewrite star_loop_S.
      rewrite run_group, run_seq, run_upper, (upper_test u Hu).
      rewrite run_lower, (lower_test l Hl).
      replace (String.length s' <? String.length (String u (String l s')))%nat
        with true by (symmetry; apply Nat.ltb_lt; simpl; lia).
      apply some_or, IH; [exact Halt | simpl in Hlen; lia | exact Hk].
Qed.

Lemma or_some {A : Type} (o o' : option A) :
  o' <> None -> match o with Some m => Some m | None => o' end <> None.
Proof. destruct o; [discriminate | auto]. Qed.

Lemma star_loop_accepts
  (body : string -> re.groups -> (string -> re.groups -> option re.groups) ->
          option re.groups)
  (k : string -> re.groups -> option re.groups)
  (fuel : nat) (s : string) (g : re.groups) :
  (forall s' g', k s' g' <> None) -> star_loop body k fuel s g <> None.
Proof.
  intros Hk. destruct fuel; [apply Hk|].
  rewrite star_loop_S. apply or_some, Hk.
Qed.

Lemma match_upper_first (c : ascii) (s : string) :
  upper c -> re.match_ Oware.moves_pattern (String c s) <> None.
Proof.
  intros Hc. unfold re.match_, Oware.moves_pattern.
  rewrite run_alt. apply some_or.
  rewrite run_group, run_seq, run_upper, (upper_test c Hc), run_seq, run_star.
  apply star_loop_accepts. intros s' g'. rewrite run_opt.
  apply or_some. discriminate.
Qed.

Lemma match_lower_first (c : ascii) (s : string) :
  lower c -> alternates true s ->
  re.match_ Oware.moves_pattern (String c s) <> None.
Proof.
  intros Hc Halt. unfold re.match_, Oware.moves_pattern.
  rewrite run_alt. apply or_some.
  rewrite run_seq, run_group, run_seq, run_lower, (lower_test c Hc).
  rewrite run_seq, run_star.
  apply pairs_loop; [exact Halt | lia | discriminate].
Qed.

Lemma letter_facts (m : Z) :
  0 <= m <= 11 ->
  exists c, Oware.to_move_notation m = Ok (String c "")
    /\ Oware.to_move (String c "") = Ok (Z.to_nat m)
    /\ (m <= 5 -> upper c) /\ (6 <= m -> lower c).
Proof.
  intros H. assert (E : exists k, m = Z.of_nat k /\ (k < 12)%nat)
    by (exists (Z.to_nat m); lia).
  destruct E as (k & -> & Hk).
  moves_below Hk; eexists; (split; [reflexivity|]); (split; [reflexivity|]);
    split; intros Hx; first [exfalso; lia | unfold upper, lower; vm_compute; lia].
Qed.

Lemma notation_letters (south : bool) (ms : list Z) :
  Forall (fun m => 0 <= m <= 11) ms -> moves_alternate south ms ->
  exists n, Oware.to_moves_notation ms = Ok n
    /\ alternates south n
    /\ Oware.to_move_each (chars n) = Ok (Z.to_nat <$> ms)
    /\ (ms <> [] -> exists c n', n = String c n').
Proof.
  intros Hall. revert south.
  induction Hall as [|m ms Hm _ IH]; intros south Halt.
  - exists "". split; [reflexivity|]. split; [exact I|].
    split; [reflexivity | congruence].
  - destruct Halt as [Hside Halt].
    destruct (IH (negb south) Halt) as (n & Hn & Hna & Heach & _).
    destruct (letter_facts m Hm) as (c & Hc & Hback & Hup & Hlow).
    exists (String c n).
    split; [|split; [|split]].
    + simpl. rewrite Hc, Hn. reflexivity.
    + split; [|exact Hna]. destruct south; [apply Hup | apply Hlow]; exact Hside.
    + change (chars (String c n)) with (String c "" :: chars n).
      change (Oware.to_move_each (String c "" :: chars n))
        with (bind (Oware.to_move (String c "")) (fun move =>
                bind (Oware.to_move_each (chars n)) (fun rest =>
                  Ok (move :: rest)))).
      rewrite Hback, Heach. reflexivity.
    + intros _. eauto.
Qed.

(** X23: a non-empty sequence of moves 0..11 that alternates between the
    two rows is written by [to_moves_notation] to a text that [to_moves]
    reads back as the same moves. *)
Theorem moves_notation_round_trip (south : bool) (ms : list Z) :
  ms <> [] -> Forall (fun m => 0 <= m <= 11) ms -> moves_alternate south ms ->
  exists n, Oware.to_moves_notation ms = Ok n
    /\ Oware.to_moves n = Ok (Z.to_nat <$> ms).
Proof.
  intros Hne Hall Halt.
  destruct (notation_letters south ms Hall Halt) as (n & Hn & Hna & Heach & Hc).
  exists n. split; [exact Hn|].
  destruct (Hc Hne) as (c & n' & ->).
  unfold Oware.to_moves.
  destruct (re.match_ Oware.moves_pattern (String c n')) eqn:E; [exact Heach|].
  exfalso. revert E. destruct Hna as [Hc1 Hrest].
  destruct south; [apply match_upper_first | apply match_lower_first]; assumption.
Qed.

Lemma moves_notation_round_trip_witness :
  exists n, Oware.to_moves_notation [8; 2; 11; 0; 6] = Ok n
    /\ Oware.to_moves n = Ok (Z.to_nat <$> [8; 2; 11; 0; 6]).
Proof.
  apply (moves_notation_round_trip false [8; 2; 11; 0; 6]).
  - discriminate.
  - repeat constructor; lia.
  - simpl. lia.
Defined.

Local Close Scope string_scope.

(** * Further properties of moves and positions *)

(** X24: capture detection and move execution agree on every board of 14
    non-negative entries, reachable or not, for every house holding between
    1 and 48 seeds. *)
Theorem capture_agreement (b : list Z) (m : nat) (s : Z) :
  wf_board b -> (m < 12)%nat -> b !! m = Some s -> 1 <= s <= 48 ->
  exists captured b' st st',
    Oware.is_capture b m = Ok captured
    /\ Oware.compute_board b m = Ok b'
    /\ b !! store_of m = Some st
    /\ b' !! store_of m = Some st'
    /\ (captured = true <-> st < st').
Proof. apply capture_correct_wf. Qed.

Lemma capture_agreement_witness :
  exists captured b' st st',
    Oware.is_capture clamp_board 0 = Ok captured
    /\ Oware.compute_board clamp_board 0 = Ok b'
    /\ clamp_board !! store_of 0 = Some st
    /\ b' !! store_of 0 = Some st'
    /\ (captured = true <-> st < st').
Proof.
  apply (capture_agreement clamp_board 0 17).
  - split; [reflexivity|]. repeat constructor; lia.
  - lia.
  - reflexivity.
  - lia.
Defined.

(** X25: [get_final_board] keeps the number of seeds, and applying it to
    its own result changes nothing. *)
Theorem final_board_idempotent (b : list Z) :
  length b = 14%nat ->
  exists fb, Oware.get_final_board b = Ok fb
    /\ length fb = 14%nat
    /\ sum fb 0 = sum b 0
    /\ Oware.get_final_board fb = Ok fb.
Proof.
  intros Hlen. board_entries b Hlen.
  unfold Oware.get_final_board, sum, slice. simpl.
  destruct (Z.gtb_spec b12 24) as [H12|H12].
  { eexists. split; [reflexivity|]. split; [reflexivity|].
    split; [reflexivity|]. simpl.
    destruct (Z.gtb_spec b12 24); [reflexivity|lia]. }
  destruct (Z.gtb_spec b13 24) as [H13|H13].
  { eexists. split; [reflexivity|]. split; [reflexivity|].
    split; [reflexivity|]. simpl.
    destruct (Z.gtb_spec b12 24); [reflexivity|].
    destruct (Z.gtb_spec b13 24); [reflexivity|lia]. }
  destruct ((b12 =? b13) && (b13 =? 24)) eqn:E; simpl.
  { eexists. split; [reflexivity|]. split; [reflexivity|].
    split; [reflexivity|]. simpl.
    destruct (Z.gtb_spec b12 24); [reflexivity|].
    destruct (Z.gtb_spec b13 24); [reflexivity|].
    rewrite E. reflexivity. }
  eexists. split; [reflexivity|]. split; [reflexivity|].
  split; [cbn [foldl]; lia|]. simpl.
  repeat match goal with
         | |- context [if ?c then _ else _] => destruct c; try reflexivity
         end.
  rewrite !Z.add_0_r. reflexivity.
Qed.

Lemma final_board_idempotent_witness :
  exists fb, Oware.get_final_board clamp_board = Ok fb
    /\ length fb = 14%nat
    /\ sum fb 0 = sum clamp_board 0
    /\ Oware.get_final_board fb = Ok fb.
Proof. apply (final_board_idempotent clamp_board). reflexivity. Defined.

(** X26: a move played on a board of 14 non-negative entries gives a board
    of 14 non-negative entries. *)
Theorem move_keeps_board_well_formed (b : list Z) (m : nat) (s : Z) :
  wf_board b -> (m < 12)%nat -> b !! m = Some s -> 1 <= s ->
  exists b', Oware.compute_board b m = Ok b' /\ wf_board b'.
Proof.
  intros [Hlen Hnn] Hm Hs Hpos.
  destruct (compute_board_total b m s Hlen Hm Hs Hpos) as (b' & E & L & _ & N).
  exists b'. split; [exact E|]. split; [exact L | exact (N Hnn)].
Qed.

Lemma move_keeps_board_well_formed_witness :
  exists b', Oware.compute_board clamp_board 0 = Ok b' /\ wf_board b'.
Proof.
  apply (move_keeps_board_well_formed clamp_board 0 17).
  - split; [reflexivity|]. repeat constructor; lia.
  - lia.
  - reflexivity.
  - lia.
Defined.
